(** * AIND-Recognizer: model selectors and recognizer

    A shallow embedding of [my_model_selectors.py] and [my_recognizer.py].

    Log-likelihoods are IEEE binary64 numbers (Python [float], numpy
    [float64]); they are modelled by Rocq's primitive [float], so that
    infinities and NaN behave as they do in the program.  Python integers are
    [Z].  A Python [dict] is an association list in insertion order, because
    the recognizer's scan and [dict.items()] depend on that order.

    Statements that may raise are modelled in a state-and-exception monad:
    the state holds the selector object's attributes and the local variables
    that live across loop iterations; a bare [except:] is [try_except]. *)

From Stdlib Require Import ZArith List String Bool Lia Floats.
Import ListNotations.

Set Implicit Arguments.

Open Scope Z_scope.

(* ================================================================== *)
(** * Order facts about binary64 comparison *)
(* ================================================================== *)

Module FloatOrder.

Ltac sf_signs :=
  repeat match goal with
         | b : bool |- _ => destruct b
         end;
  simpl in *; try congruence; try tauto.

Ltac sf_cmp :=
  repeat match goal with
         | H : context [ Z.compare ?a ?b ] |- _ =>
             destruct (Z.compare_spec a b); subst
         | |- context [ Z.compare ?a ?b ] =>
             destruct (Z.compare_spec a b); subst
         | H : context [ Pos.compare_cont Eq ?a ?b ] |- _ =>
             change (Pos.compare_cont Eq a b) with (Pos.compare a b) in H
         | |- context [ Pos.compare_cont Eq ?a ?b ] =>
             change (Pos.compare_cont Eq a b) with (Pos.compare a b)
         | H : context [ Pos.compare ?a ?b ] |- _ =>
             destruct (Pos.compare_spec a b); subst
         | |- context [ Pos.compare ?a ?b ] =>
             destruct (Pos.compare_spec a b); subst
         end;
  simpl in *; try congruence; try lia.

Ltac sf_solve := sf_signs; sf_cmp.

Lemma SFcompare_lt_trans a b c :
  SFcompare a b = Some Lt -> SFcompare b c = Some Lt ->
  SFcompare a c = Some Lt.
Proof. destruct a, b, c; simpl; intros H1 H2; sf_solve. Qed.

Lemma SFcompare_lt_eq_trans a b c :
  SFcompare a b = Some Lt -> SFcompare b c = Some Eq ->
  SFcompare a c = Some Lt.
Proof. destruct a, b, c; simpl; intros H1 H2; sf_solve. Qed.

Lemma SFcompare_eq_lt_trans a b c :
  SFcompare a b = Some Eq -> SFcompare b c = Some Lt ->
  SFcompare a c = Some Lt.
Proof. destruct a, b, c; simpl; intros H1 H2; sf_solve. Qed.

Lemma SFcompare_refl_not_lt a : SFcompare a a <> Some Lt.
Proof. destruct a; simpl; sf_solve. Qed.

Lemma SFcompare_refl a : a <> S754_nan -> SFcompare a a = Some Eq.
Proof. destruct a; simpl; intros H; sf_solve. Qed.

Lemma SFcompare_nan_l a b : SFcompare a b <> None -> a <> S754_nan.
Proof. destruct a, b; simpl; congruence. Qed.

Lemma SFcompare_total a b :
  a <> S754_nan -> b <> S754_nan ->
  SFcompare a b = Some Lt \/ SFcompare b a = Some Lt \/ SFcompare b a = Some Eq.
Proof. destruct a, b; simpl; intros Ha Hb; sf_signs; sf_cmp; auto. Qed.

Lemma SFcompare_antisym a b :
  SFcompare a b = Some Lt -> SFcompare b a = Some Gt.
Proof. destruct a, b; simpl; intros H; sf_solve. Qed.

Lemma ltb_lt x y :
  (x <? y)%float = true <-> SFcompare (Prim2SF x) (Prim2SF y) = Some Lt.
Proof.
  rewrite ltb_spec. unfold SFltb.
  destruct (SFcompare (Prim2SF x) (Prim2SF y)) as [[ | | ]|];
    split; congruence.
Qed.

Lemma leb_le x y :
  (x <=? y)%float = true <->
  SFcompare (Prim2SF x) (Prim2SF y) = Some Lt \/
  SFcompare (Prim2SF x) (Prim2SF y) = Some Eq.
Proof.
  rewrite leb_spec. unfold SFleb.
  destruct (SFcompare (Prim2SF x) (Prim2SF y)) as [[ | | ]|];
    split; intros; try tauto; try congruence; destruct H; congruence.
Qed.

Lemma is_nan_false x : is_nan x = false <-> Prim2SF x <> S754_nan.
Proof.
  unfold is_nan. rewrite eqb_spec. unfold SFeqb. split.
  - intros H E. rewrite E in H. simpl in H. discriminate.
  - intros H. rewrite (SFcompare_refl H). reflexivity.
Qed.

Lemma ltb_irrefl x : (x <? x)%float = false.
Proof.
  destruct (x <? x)%float eqn:E; [|reflexivity].
  apply ltb_lt in E. now apply SFcompare_refl_not_lt in E.
Qed.

Lemma ltb_trans x y z :
  (x <? y)%float = true -> (y <? z)%float = true -> (x <? z)%float = true.
Proof. rewrite !ltb_lt. apply SFcompare_lt_trans. Qed.

Lemma ltb_leb_trans x y z :
  (x <? y)%float = true -> (y <=? z)%float = true -> (x <? z)%float = true.
Proof.
  rewrite !ltb_lt, leb_le. intros H [H'|H'].
  - eapply SFcompare_lt_trans; eassumption.
  - eapply SFcompare_lt_eq_trans; eassumption.
Qed.

Lemma leb_ltb_trans x y z :
  (x <=? y)%float = true -> (y <? z)%float = true -> (x <? z)%float = true.
Proof.
  rewrite !ltb_lt, leb_le. intros [H|H] H'.
  - eapply SFcompare_lt_trans; eassumption.
  - eapply SFcompare_eq_lt_trans; eassumption.
Qed.

Lemma ltb_leb x y : (x <? y)%float = true -> (x <=? y)%float = true.
Proof. rewrite ltb_lt, leb_le. auto. Qed.

Lemma ltb_asym x y : (x <? y)%float = true -> (y <? x)%float = false.
Proof.
  intros H. destruct (y <? x)%float eqn:E; [|reflexivity].
  pose proof (ltb_trans H E) as C. now rewrite ltb_irrefl in C.
Qed.

Lemma ltb_false_leb x y :
  is_nan x = false -> is_nan y = false ->
  (x <? y)%float = false -> (y <=? x)%float = true.
Proof.
  rewrite !is_nan_false. intros Hx Hy H.
  apply leb_le.
  destruct (SFcompare_total Hx Hy) as [L|[L|L]]; auto.
  apply ltb_lt in L. congruence.
Qed.

Lemma ltb_not_nan x y :
  (x <? y)%float = true -> is_nan x = false /\ is_nan y = false.
Proof.
  rewrite ltb_lt, !is_nan_false. intros H.
  destruct (Prim2SF x), (Prim2SF y); simpl in H; split; congruence.
Qed.

End FloatOrder.

(* ================================================================== *)
(** * Python prelude *)
(* ================================================================== *)

(** Exceptions the program can meet.  The selectors and the recognizer
    catch them with a bare [except:], so only their presence matters. *)
Inductive exn : Type :=
| AttributeError   (* method or attribute of [None] or of an [int] *)
| NameError        (* a local variable read before it was bound *)
| KeyError
| IndexError
| ValueError
| LibraryError.    (* raised inside hmmlearn's [fit] or [score] *)

Inductive result (A : Type) : Type :=
| Ok (a : A)
| Raise (e : exn).

Arguments Ok {A} a.
Arguments Raise {A} e.

Definition is_ok {A} (r : result A) : bool :=
  match r with Ok _ => true | Raise _ => false end.

(** Statements over a state [St]: the outcome and the state left behind.
    A raise keeps the assignments made before it, as in Python. *)
Definition M (St A : Type) : Type := St -> result A * St.

Definition ret {St A} (a : A) : M St A := fun s => (Ok a, s).

Definition bind {St A B} (c : M St A) (k : A -> M St B) : M St B :=
  fun s => match c s with
           | (Ok a, s') => k a s'
           | (Raise e, s') => (Raise e, s')
           end.

Definition raise {St A} (e : exn) : M St A := fun s => (Raise e, s).

Definition get {St} : M St St := fun s => (Ok s, s).

Definition modify {St} (f : St -> St) : M St unit := fun s => (Ok tt, f s).

(** A value that is either there or raises [e]. *)
Definition lift {St A} (e : exn) (o : option A) : M St A :=
  match o with Some a => ret a | None => raise e end.

Definition lift_result {St A} (r : result A) : M St A :=
  match r with Ok a => ret a | Raise e => raise e end.

(** [try: body / except: handler] *)
Definition try_except {St A} (body handler : M St A) : M St A :=
  fun s => match body s with
           | (Ok a, s') => (Ok a, s')
           | (Raise _, s') => handler s'
           end.

Declare Scope py_scope.
Delimit Scope py_scope with py.
Notation "x <- c ;; k" := (bind c (fun x => k))
  (at level 100, c at next level, right associativity) : py_scope.
Notation "c ;; k" := (bind c (fun _ => k))
  (at level 100, right associativity) : py_scope.
Open Scope py_scope.

(** [for x in l: body x] *)
Fixpoint for_each {St A} (l : list A) (body : A -> M St unit) : M St unit :=
  match l with
  | [] => ret tt
  | x :: r => body x ;; for_each r body
  end.

(** [pass] *)
Definition pass {St} : M St unit := ret tt.

(** [range(lo, hi)] *)
Definition range (lo hi : Z) : list Z :=
  map (fun i => lo + Z.of_nat i) (seq 0 (Z.to_nat (hi - lo))).

(** ** Dictionaries, in insertion order *)

Definition dict (K V : Type) : Type := list (K * V).

Section Dict.
Variables (K V : Type).
Variable eqb : K -> K -> bool.

(** [d[k]], [None] standing for [KeyError] *)
Fixpoint dict_get (k : K) (d : dict K V) : option V :=
  match d with
  | [] => None
  | (k', v) :: r => if eqb k k' then Some v else dict_get k r
  end.

(** [d[k] = v]: an existing key keeps its place, a new one goes last *)
Fixpoint dict_set (k : K) (v : V) (d : dict K V) : dict K V :=
  match d with
  | [] => [(k, v)]
  | (k', v') :: r =>
      if eqb k k' then (k', v) :: r else (k', v') :: dict_set k v r
  end.
End Dict.

Definition keys {K V} (d : dict K V) : list K := map fst d.
Definition values {K V} (d : dict K V) : list V := map snd d.

(** ** Numbers *)

(** [float(z)] for a Python integer: rounding to nearest even. *)
Definition Z2F (z : Z) : float :=
  SF2Prim (binary_normalize prec emax z 0 false).

(** The variable [likelihoods] of [SelectorCV.select] holds a list of floats
    on one path and a single float on the other. *)
Inductive likes : Type :=
| LList (l : list float)
| LScalar (x : float).

(** [np.sum] of a list of floats, as numpy's [add.reduce] computes it on
    the contiguous float64 array made of the list: the identity [0.0] plus
    the pairwise sum of the elements.  The pairwise sum adds fewer than 8
    elements left to right; up to 128 elements it keeps 8 running sums
    over the blocks of 8, adds these as a balanced tree and then adds
    the elements left over, left to right; a longer array is split near
    the middle, at a multiple of 8, and the sums of the two parts are
    added. *)
Definition add8 (r block : list float) : list float :=
  map (fun p => (fst p + snd p)%float) (combine r block).

(** [blocks] turns of [r[j] += a[i + j]], and what of [a] is left. *)
Fixpoint sum_blocks (blocks : nat) (r a : list float)
  : list float * list float :=
  match blocks with
  | O => (r, a)
  | S b => sum_blocks b (add8 r (firstn 8 a)) (skipn 8 a)
  end.

Definition sum_tree (r : list float) : float :=
  match r with
  | [r0; r1; r2; r3; r4; r5; r6; r7] =>
      (((r0 + r1) + (r2 + r3)) + ((r4 + r5) + (r6 + r7)))%float
  | _ => fold_left PrimFloat.add r neg_zero
  end.

(** The recursion halves the array, so a fuel of its length is never
    used up ([pairwise_sum_fuel] below). *)
Fixpoint pairwise_sum_rec (fuel : nat) (a : list float) : float :=
  let n := List.length a in
  if (n <? 8)%nat then fold_left PrimFloat.add a neg_zero
  else if (n <=? 128)%nat then
    let '(r, rest) := sum_blocks (n / 8 - 1) (firstn 8 a) (skipn 8 a) in
    fold_left PrimFloat.add rest (sum_tree r)
  else
    match fuel with
    | O => fold_left PrimFloat.add a neg_zero
    | S fuel' =>
        let n2 := (n / 2 - (n / 2) mod 8)%nat in
        (pairwise_sum_rec fuel' (firstn n2 a)
         + pairwise_sum_rec fuel' (skipn n2 a))%float
    end.

Definition pairwise_sum (a : list float) : float :=
  pairwise_sum_rec (List.length a) a.

Definition np_sum (l : list float) : float :=
  (0 + pairwise_sum l)%float.

(** [np.mean]: of a list, the sum over the length (NaN for the empty list,
    with a warning and no exception); of a scalar, the scalar. *)
Definition np_mean (v : likes) : float :=
  match v with
  | LList l => (np_sum l / Z2F (Z.of_nat (List.length l)))%float
  | LScalar x => x
  end.

(** [min(l, key=lambda x: x[0])] and [max(...)] on a non-empty list:
    CPython keeps the first element and replaces it by a later one only when
    the later key is strictly smaller (larger). *)
Definition py_min_by {A} (first : float * A) (rest : list (float * A))
  : float * A :=
  fold_left (fun best x => if (fst x <? fst best)%float then x else best)
            rest first.

Definition py_max_by {A} (first : float * A) (rest : list (float * A))
  : float * A :=
  fold_left (fun best x => if (fst best <? fst x)%float then x else best)
            rest first.

(** ** Facts about the prelude *)

(** More fuel than the length changes nothing. *)
Lemma pairwise_sum_fuel fuel1 : forall fuel2 a,
  (List.length a <= fuel1)%nat -> (List.length a <= fuel2)%nat ->
  pairwise_sum_rec fuel1 a = pairwise_sum_rec fuel2 a.
Proof.
  induction fuel1 as [|fuel1 IH]; intros fuel2 a H1 H2.
  - destruct a; [|simpl in H1; lia]. destruct fuel2; reflexivity.
  - destruct fuel2 as [|fuel2].
    + destruct a; [reflexivity|simpl in H2; lia].
    + cbn [pairwise_sum_rec].
      destruct (List.length a <? 8)%nat; [reflexivity|].
      destruct (List.length a <=? 128)%nat eqn:L; [reflexivity|].
      apply Nat.leb_gt in L.
      assert (Hhalf : (List.length a / 2 < List.length a)%nat)
        by (apply Nat.div_lt; lia).
      assert (Hmod : (List.length a / 2 mod 8 < 8)%nat)
        by (apply Nat.mod_upper_bound; lia).
      assert (Hbig : (64 <= List.length a / 2)%nat)
        by (apply Nat.div_le_lower_bound; lia).
      f_equal; apply IH; rewrite ?length_firstn, ?length_skipn; lia.
Qed.

Lemma range_In lo hi n : In n (range lo hi) <-> lo <= n < hi.
Proof.
  unfold range. rewrite in_map_iff. split.
  - intros [i [<- Hi]]. apply in_seq in Hi. lia.
  - intros H. exists (Z.to_nat (n - lo)). split; [lia|].
    apply in_seq. lia.
Qed.

Lemma bind_run St A B (c : M St A) (k : A -> M St B) s :
  bind c k s =
  match c s with
  | (Ok a, s') => k a s'
  | (Raise e, s') => (Raise e, s')
  end.
Proof. reflexivity. Qed.

Lemma for_each_cons St A (body : A -> M St unit) x l s :
  for_each (x :: l) body s =
  match body x s with
  | (Ok _, s') => for_each l body s'
  | (Raise e, s') => (Raise e, s')
  end.
Proof. reflexivity. Qed.

Lemma for_each_app St A (body : A -> M St unit) l1 l2 s :
  for_each (l1 ++ l2) body s =
  match for_each l1 body s with
  | (Ok _, s') => for_each l2 body s'
  | (Raise e, s') => (Raise e, s')
  end.
Proof.
  revert s. induction l1 as [|x l1 IH]; intros s; simpl.
  - reflexivity.
  - unfold bind. destruct (body x s) as [[[]|e] s']; [apply IH|reflexivity].
Qed.

(** A loop whose body never raises never raises, and carries an
    invariant over the elements already visited. *)
Lemma for_each_invariant St A (body : A -> M St unit)
      (P : list A -> St -> Prop) :
  (forall done x s, P done s ->
     exists s', body x s = (Ok tt, s') /\ P (done ++ [x]) s') ->
  forall l done s, P done s ->
    exists s', for_each l body s = (Ok tt, s') /\ P (done ++ l) s'.
Proof.
  intros Hbody. induction l as [|x l IH]; intros done s HP; simpl.
  - exists s. rewrite app_nil_r. auto.
  - destruct (Hbody done x s HP) as [s1 [E1 P1]].
    destruct (IH _ _ P1) as [s2 [E2 P2]].
    exists s2. unfold bind. rewrite E1. split; [exact E2|].
    now rewrite <- app_assoc in P2.
Qed.

Section Selection.
Variable A : Type.
Implicit Types (best x : float * A) (rest seen : list (float * A)).

Lemma py_min_by_scan rest : forall seen best,
  In best seen ->
  (forall x, In x seen -> (fst x <? fst best)%float = false) ->
  In (py_min_by best rest) (seen ++ rest) /\
  forall x, In x (seen ++ rest) ->
            (fst x <? fst (py_min_by best rest))%float = false.
Proof.
  induction rest as [|y rest IH]; intros seen best Hin Hmin; simpl.
  - rewrite app_nil_r. auto.
  - unfold py_min_by in *. simpl.
    replace (seen ++ y :: rest) with ((seen ++ [y]) ++ rest)
      by (rewrite <- app_assoc; reflexivity).
    destruct (fst y <? fst best)%float eqn:E; apply IH.
    + apply in_or_app. right. now left.
    + intros x Hx. apply in_app_or in Hx. destruct Hx as [Hx|[<-|[]]].
      * destruct (fst x <? fst y)%float eqn:E'; [|reflexivity].
        rewrite <- (Hmin x Hx). symmetry.
        eapply FloatOrder.ltb_trans; eassumption.
      * apply FloatOrder.ltb_irrefl.
    + apply in_or_app. now left.
    + intros x Hx. apply in_app_or in Hx. destruct Hx as [Hx|[<-|[]]]; auto.
Qed.

Lemma py_max_by_scan rest : forall seen best,
  In best seen ->
  (forall x, In x seen -> (fst best <? fst x)%float = false) ->
  In (py_max_by best rest) (seen ++ rest) /\
  forall x, In x (seen ++ rest) ->
            (fst (py_max_by best rest) <? fst x)%float = false.
Proof.
  induction rest as [|y rest IH]; intros seen best Hin Hmax; simpl.
  - rewrite app_nil_r. auto.
  - unfold py_max_by in *. simpl.
    replace (seen ++ y :: rest) with ((seen ++ [y]) ++ rest)
      by (rewrite <- app_assoc; reflexivity).
    destruct (fst best <? fst y)%float eqn:E; apply IH.
    + apply in_or_app. right. now left.
    + intros x Hx. apply in_app_or in Hx. destruct Hx as [Hx|[<-|[]]].
      * destruct (fst y <? fst x)%float eqn:E'; [|reflexivity].
        rewrite <- (Hmax x Hx). symmetry.
        eapply FloatOrder.ltb_trans; eassumption.
      * apply FloatOrder.ltb_irrefl.
    + apply in_or_app. now left.
    + intros x Hx. apply in_app_or in Hx. destruct Hx as [Hx|[<-|[]]]; auto.
Qed.

(** [min]: the result is an element, and no element is strictly below. *)
Lemma py_min_by_least first rest :
  In (py_min_by first rest) (first :: rest) /\
  forall x, In x (first :: rest) ->
            (fst x <? fst (py_min_by first rest))%float = false.
Proof.
  apply (@py_min_by_scan rest [first] first).
  - now left.
  - intros x [<-|[]]. apply FloatOrder.ltb_irrefl.
Qed.

(** [max]: the result is an element, and no element is strictly above. *)
Lemma py_max_by_greatest first rest :
  In (py_max_by first rest) (first :: rest) /\
  forall x, In x (first :: rest) ->
            (fst (py_max_by first rest) <? fst x)%float = false.
Proof.
  apply (@py_max_by_scan rest [first] first).
  - now left.
  - intros x [<-|[]]. apply FloatOrder.ltb_irrefl.
Qed.
End Selection.

(* ================================================================== *)
(** * Data *)
(* ================================================================== *)

(** A feature frame, a sequence of frames, and the flat array of frames the
    fitter consumes together with the lengths of the sequences in it. *)
Definition frame : Type := list float.
Definition sequence : Type := list frame.
Definition Arr : Type := list frame.
Definition Xlengths : Type := (Arr * list Z)%type.

(** Modelled from the spec: [combine_sequences] of [asl_utils], which is not
    among the sources (section 4.1, SequenceCombiner): the sequences at the
    given positions, concatenated in the order of the positions, with their
    lengths; a position out of range fails. *)
Fixpoint combine_sequences (split_index_list : list nat)
         (sequences : list sequence) : option Xlengths :=
  match split_index_list with
  | [] => Some ([], [])
  | idx :: r =>
      match nth_error sequences idx, combine_sequences r sequences with
      | Some sq, Some (X, lengths) =>
          Some (sq ++ X, Z.of_nat (List.length sq) :: lengths)
      | _, _ => None
      end
  end.

(** ** Models *)

(** A [GaussianHMM] object after a successful [fit]: the constructor's
    arguments, the feature dimensionality [fit] reads from the data, and the
    fitted parameters, which only hmmlearn looks into. *)
Record GaussianHMM (Params : Type) : Type := {
  n_components : Z;
  covariance_type : string;
  n_iter : Z;
  hmm_random_state : Z;
  n_features : Z;
  params : Params
}.

(** What a selector returns and what the recognizer finds in [models]:
    [None], an integer, or a fitted model. *)
Inductive pyvalue (Params : Type) : Type :=
| PyNone
| PyInt (z : Z)
| PyModel (m : GaussianHMM Params).

Arguments PyNone {Params}.
Arguments PyInt {Params} z.
Arguments PyModel {Params} m.

(** Method and attribute access on a value that may be [None] or an
    integer.  [hmm_score m X lengths] stands for hmmlearn's
    [m.score(X, lengths)], [None] when it raises. *)
Section Methods.
Variables (Params St : Type).
Variable hmm_score : GaussianHMM Params -> Arr -> list Z -> option float.

(** [v.score(X, lengths)] *)
Definition score (v : pyvalue Params) (X : Arr) (lengths : list Z)
  : M St float :=
  match v with
  | PyModel m => lift LibraryError (hmm_score m X lengths)
  | _ => raise AttributeError
  end.

(** [v.n_features] *)
Definition get_n_features (v : pyvalue Params) : M St Z :=
  match v with
  | PyModel m => ret (n_features m)
  | _ => raise AttributeError
  end.
End Methods.

Arguments get_n_features {Params St} v.

(** The attributes [ModelSelector.__init__] stores. *)
Record ModelSelector : Type := {
  words : dict string (list sequence);
  hwords : dict string Xlengths;
  sequences : list sequence;
  X : Arr;
  lengths : list Z;
  this_word : string;
  n_constant : Z;
  min_n_components : Z;
  max_n_components : Z;
  random_state : Z;
  verbose : bool
}.

(** [ModelSelector.__init__]; a word missing from either mapping raises
    [KeyError]. *)
Definition init (all_word_sequences : dict string (list sequence))
           (all_word_Xlengths : dict string Xlengths) (this_word : string)
           (n_constant min_n_components max_n_components random_state : Z)
           (verbose : bool) : result ModelSelector :=
  match dict_get String.eqb this_word all_word_sequences with
  | None => Raise KeyError
  | Some sqs =>
      match dict_get String.eqb this_word all_word_Xlengths with
      | None => Raise KeyError
      | Some (X, lengths) =>
          Ok {| words := all_word_sequences;
                hwords := all_word_Xlengths;
                sequences := sqs;
                X := X;
                lengths := lengths;
                this_word := this_word;
                n_constant := n_constant;
                min_n_components := min_n_components;
                max_n_components := max_n_components;
                random_state := random_state;
                verbose := verbose |}
      end
  end.

(** [self.X, self.lengths = v] rebinds the two attributes; the tuple held by
    [hwords] and the arrays in it are other objects and stay as they are. *)
Definition assign_X_lengths (v : Xlengths) (s : ModelSelector)
  : ModelSelector :=
  {| words := words s;
     hwords := hwords s;
     sequences := sequences s;
     X := fst v;
     lengths := snd v;
     this_word := this_word s;
     n_constant := n_constant s;
     min_n_components := min_n_components s;
     max_n_components := max_n_components s;
     random_state := random_state s;
     verbose := verbose s |}.

(** The four strategies. *)
Inductive selector : Type :=
| SelectorConstant
| SelectorBIC
| SelectorDIC
| SelectorCV.

(* ================================================================== *)
(** * my_model_selectors.py *)
(* ================================================================== *)

Module Selectors.
Section WithLibraries.

(** hmmlearn, numpy and scikit-learn are outside the repository; what the
    selectors use of them is taken as given.  [hmm_fit n seed X lengths]
    is [GaussianHMM(n_components=n, covariance_type="diag", n_iter=1000,
    random_state=seed).fit(X, lengths)]: the feature dimensionality and
    the fitted parameters, or [None] when it raises.  [hmm_score] is
    [model.score(X, lengths)], [None] when it raises.  [KFold_split] is
    [KFold().split(sequences)]: the (train, test) index lists of each
    fold, or [None] when it raises. *)
Variable Params : Type.
Variable hmm_fit : Z -> Z -> Arr -> list Z -> option (Z * Params).
Variable hmm_score : GaussianHMM Params -> Arr -> list Z -> option float.
Variable np_log : float -> float.
Variable KFold_split :
  list sequence -> option (list (list nat * list nat)).

Local Abbreviation model_t := (GaussianHMM Params).
Local Abbreviation value := (pyvalue Params).

(** The activation of one [select()] call: the object and the local
    variables that are read in a later statement than the one binding
    them.  [model] is unbound ([None]) on entry; the other three are
    assigned before their first use on every path. *)
Record env : Type := {
  self : ModelSelector;
  scores : list (float * value);
  scores_temp : list float;
  likelihoods : likes;
  model : option value
}.

Definition enter (s : ModelSelector) : env :=
  {| self := s; scores := []; scores_temp := [];
     likelihoods := LList []; model := None |}.

Definition set_self (s : ModelSelector) : M env unit :=
  modify (fun e => {| self := s; scores := scores e;
                      scores_temp := scores_temp e;
                      likelihoods := likelihoods e; model := model e |}).

Definition set_scores (v : list (float * value)) : M env unit :=
  modify (fun e => {| self := self e; scores := v;
                      scores_temp := scores_temp e;
                      likelihoods := likelihoods e; model := model e |}).

Definition set_scores_temp (v : list float) : M env unit :=
  modify (fun e => {| self := self e; scores := scores e;
                      scores_temp := v;
                      likelihoods := likelihoods e; model := model e |}).

Definition set_likelihoods (v : likes) : M env unit :=
  modify (fun e => {| self := self e; scores := scores e;
                      scores_temp := scores_temp e;
                      likelihoods := v; model := model e |}).

Definition set_model (v : value) : M env unit :=
  modify (fun e => {| self := self e; scores := scores e;
                      scores_temp := scores_temp e;
                      likelihoods := likelihoods e; model := Some v |}).

(** reading the local variable [model] *)
Definition read_model : M env value :=
  e <- get ;; lift NameError (model e).

(** [scores.append(v)] *)
Definition scores_append (v : float * value) : M env unit :=
  e <- get ;; set_scores (scores e ++ [v]).

(** [scores_temp.append(x)] *)
Definition scores_temp_append (x : float) : M env unit :=
  e <- get ;; set_scores_temp (scores_temp e ++ [x]).

(** [likelihoods.append(x)]: a float has no [append]. *)
Definition likelihoods_append (x : float) : M env unit :=
  e <- get ;;
  match likelihoods e with
  | LList l => set_likelihoods (LList (l ++ [x]))
  | LScalar _ => raise AttributeError
  end.

(** The object [GaussianHMM(...).fit(...)] returns. *)
Definition fitted (num_states seed : Z) (dp : Z * Params) : model_t :=
  {| n_components := num_states;
     covariance_type := "diag";
     n_iter := 1000;
     hmm_random_state := seed;
     n_features := fst dp;
     params := snd dp |}.

(** [ModelSelector.base_model]; the messages printed under [verbose] are
    output only and are left out. *)
Definition base_model (num_states : Z) : M env value :=
  try_except
    (e <- get ;;
     dp <- lift LibraryError
             (hmm_fit num_states (random_state (self e))
                      (X (self e)) (lengths (self e))) ;;
     let hmm_model := fitted num_states (random_state (self e)) dp in
     ret (PyModel hmm_model))
    (ret PyNone).

(** [SelectorConstant.select] *)
Definition select_Constant : M env value :=
  e <- get ;;
  let best_num_components := n_constant (self e) in
  base_model best_num_components.

(** The [try] block of [SelectorBIC.select]. *)
Definition BIC_try (num_states : Z) : M env unit :=
  m <- base_model num_states ;;
  set_model m ;;
  e <- get ;;
  logL <- score hmm_score m (X (self e)) (lengths (self e)) ;;
  let logN := np_log (Z2F (Z.of_nat (List.length (X (self e))))) in
  d <- get_n_features m ;;
  let p := num_states ^ 2 + 2 * d * num_states - 1 in
  let result := ((-2.0) * logL + Z2F p * logN)%float in
  scores_append (result, m).

(** [SelectorBIC.select] *)
Definition select_BIC : M env value :=
  set_scores [] ;;
  e <- get ;;
  for_each (range (min_n_components (self e))
                  (max_n_components (self e) + 1))
           (fun num_states => try_except (BIC_try num_states) pass) ;;
  e <- get ;;
  match scores e with
  | first :: rest =>
      let minimum := py_min_by first rest in
      ret (snd minimum)
  | [] => ret (PyInt (n_constant (self e)))
  end.

(** One turn of the loop over [self.hwords.items()] in
    [SelectorDIC.select]. *)
Definition DIC_other (m : value) (item : string * Xlengths) : M env unit :=
  let '(word, (X', lengths')) := item in
  e <- get ;;
  if negb (String.eqb word (this_word (self e))) then
    x <- score hmm_score m X' lengths' ;;
    scores_temp_append x
  else pass.

(** The [try] block of [SelectorDIC.select]. *)
Definition DIC_try (num_states : Z) : M env unit :=
  m <- base_model num_states ;;
  set_model m ;;
  set_scores_temp [] ;;
  e <- get ;;
  for_each (hwords (self e)) (DIC_other m) ;;
  e <- get ;;
  own <- score hmm_score m (X (self e)) (lengths (self e)) ;;
  e <- get ;;
  let result := (own - np_mean (LList (scores_temp e)))%float in
  scores_append (result, m).

(** [SelectorDIC.select] *)
Definition select_DIC : M env value :=
  set_scores [] ;;
  e <- get ;;
  for_each (range (min_n_components (self e))
                  (max_n_components (self e) + 1))
           (fun num_states => try_except (DIC_try num_states) pass) ;;
  e <- get ;;
  match scores e with
  | first :: rest =>
      let maximum := py_max_by first rest in
      ret (snd maximum)
  | [] => ret (PyInt (n_constant (self e)))
  end.

(** One turn of the loop over the folds in [SelectorCV.select]. *)
Definition CV_fold (num_states : Z) (fold : list nat * list nat)
  : M env unit :=
  let '(train_index, test_index) := fold in
  e <- get ;;
  train <- lift IndexError
             (combine_sequences train_index (sequences (self e))) ;;
  set_self (assign_X_lengths train (self e)) ;;
  e <- get ;;
  test <- lift IndexError
            (combine_sequences test_index (sequences (self e))) ;;
  let '(X_test, lengths_test) := test in
  m <- base_model num_states ;;
  set_model m ;;
  likelihood <- score hmm_score m X_test lengths_test ;;
  likelihoods_append likelihood.

(** The [try] block of [SelectorCV.select]. *)
Definition CV_try (num_states : Z) : M env unit :=
  e <- get ;;
  (if (2 <? List.length (sequences (self e)))%nat then
     folds <- lift ValueError (KFold_split (sequences (self e))) ;;
     for_each folds (CV_fold num_states)
   else
     m <- base_model num_states ;;
     set_model m ;;
     e <- get ;;
     x <- score hmm_score m (X (self e)) (lengths (self e)) ;;
     set_likelihoods (LScalar x)) ;;
  e <- get ;;
  let mean := np_mean (likelihoods e) in
  m <- read_model ;;
  scores_append (mean, m).

(** [SelectorCV.select] *)
Definition select_CV : M env value :=
  set_likelihoods (LList []) ;;
  set_scores [] ;;
  e <- get ;;
  for_each (range (min_n_components (self e))
                  (max_n_components (self e) + 1))
           (fun num_states => try_except (CV_try num_states) pass) ;;
  e <- get ;;
  match scores e with
  | first :: rest =>
      let maximum := py_max_by first rest in
      ret (snd maximum)
  | [] => ret (PyInt (n_constant (self e)))
  end.

Definition select_body (k : selector) : M env value :=
  match k with
  | SelectorConstant => select_Constant
  | SelectorBIC => select_BIC
  | SelectorDIC => select_DIC
  | SelectorCV => select_CV
  end.

(** One call of [select()] on the object [s], with the activation it
    ends in. *)
Definition run_select (k : selector) (s : ModelSelector)
  : result value * env :=
  select_body k (enter s).

(** What the caller sees: the outcome and the object afterwards. *)
Definition select (k : selector) (s : ModelSelector)
  : result value * ModelSelector :=
  (fst (run_select k s), self (snd (run_select k s))).

(** ** What each trial computes

    The criteria as the selectors' documentation states them, as functions
    of the selector object; the theorems below compare the programs
    with them. *)

(** The model a successful fit of [n] states on [(X, lengths)] gives. *)
Definition fit_model (s : ModelSelector) (n : Z) (X : Arr)
           (lengths : list Z) : option model_t :=
  option_map (fitted n (random_state s))
             (hmm_fit n (random_state s) X lengths).

(** BIC = -2 * logL + p * logN, with p = n^2 + 2*d*n - 1 and N the number
    of frames. *)
Definition BIC_score (logL : float) (N : nat) (n d : Z) : float :=
  ((-2.0) * logL
   + Z2F (n ^ 2 + 2 * d * n - 1) * np_log (Z2F (Z.of_nat N)))%float.

Definition BIC_trial (s : ModelSelector) (n : Z)
  : option (float * model_t) :=
  match fit_model s n (X s) (lengths s) with
  | Some m =>
      match hmm_score m (X s) (lengths s) with
      | Some logL =>
          Some (BIC_score logL (List.length (X s)) n (n_features m), m)
      | None => None
      end
  | None => None
  end.

(** The whole-word data of every word but this one, in the order of the
    mapping. *)
Definition others_of (this : string) (d : dict string Xlengths)
  : list Xlengths :=
  map snd (filter (fun it => negb (String.eqb (fst it) this)) d).

Definition other_words (s : ModelSelector) : list Xlengths :=
  others_of (this_word s) (hwords s).

(** The log-likelihoods of all of [l], or nothing if one of them fails. *)
Fixpoint score_all (m : model_t) (l : list Xlengths) : option (list float) :=
  match l with
  | [] => Some []
  | (X', lengths') :: r =>
      match hmm_score m X' lengths' with
      | None => None
      | Some x =>
          match score_all m r with
          | None => None
          | Some xs => Some (x :: xs)
          end
      end
  end.

(** DIC = logL(own word) - mean(logL(other words)) *)
Definition DIC_trial (s : ModelSelector) (n : Z)
  : option (float * model_t) :=
  match fit_model s n (X s) (lengths s) with
  | Some m =>
      match score_all m (other_words s) with
      | Some others =>
          match hmm_score m (X s) (lengths s) with
          | Some own => Some ((own - np_mean (LList others))%float, m)
          | None => None
          end
      | None => None
      end
  | None => None
  end.

(** Without folds: one fit on the whole-word data, scored on the same. *)
Definition CV_single_trial (s : ModelSelector) (n : Z)
  : option (float * model_t) :=
  match fit_model s n (X s) (lengths s) with
  | Some m =>
      match hmm_score m (X s) (lengths s) with
      | Some logL => Some (logL, m)
      | None => None
      end
  | None => None
  end.

(** The entry a trial leaves in [scores]. *)
Definition entry (t : option (float * model_t)) : list (float * value) :=
  match t with
  | Some (v, m) => [(v, PyModel m)]
  | None => []
  end.

(** The candidates, in the order the loop visits them. *)
Definition candidates (s : ModelSelector) : list Z :=
  range (min_n_components s) (max_n_components s + 1).

(** [scores] after a loop in which candidate [n] leaves [entry (trial n)]. *)
Definition recorded (trial : ModelSelector -> Z -> option (float * model_t))
           (s : ModelSelector) : list (float * value) :=
  flat_map (fun n => entry (trial s n)) (candidates s).

Lemma candidates_In s n :
  In n (candidates s) <-> min_n_components s <= n <= max_n_components s.
Proof. unfold candidates. rewrite range_In. lia. Qed.

Lemma recorded_In trial s v x :
  In (v, x) (recorded trial s) <->
  exists n m, min_n_components s <= n <= max_n_components s /\
              trial s n = Some (v, m) /\ x = PyModel m.
Proof.
  unfold recorded. rewrite in_flat_map. split.
  - intros [n [Hn Hin]]. apply candidates_In in Hn.
    destruct (trial s n) as [[v' m]|] eqn:E; simpl in Hin; [|tauto].
    destruct Hin as [Hin|[]]. inversion Hin; subst. eauto.
  - intros [n [m [Hn [E ->]]]]. exists n. split.
    + now apply candidates_In.
    + rewrite E. simpl. auto.
Qed.

Lemma fit_model_n_components s n X' l' m :
  fit_model s n X' l' = Some m -> n_components m = n.
Proof.
  unfold fit_model. destruct (hmm_fit _ _ _ _); simpl; [|discriminate].
  intros H. inversion H. reflexivity.
Qed.

(** ** The statements, run *)

(** What [base_model] returns: it never raises and changes nothing. *)
Definition base_model_value (s : ModelSelector) (n : Z) : value :=
  match fit_model s n (X s) (lengths s) with
  | Some m => PyModel m
  | None => PyNone
  end.

Lemma base_model_run n e :
  base_model n e = (Ok (base_model_value (self e) n), e).
Proof.
  unfold base_model, base_model_value, fit_model, try_except, bind, get, lift.
  destruct (hmm_fit n (random_state (self e)) (X (self e)) (lengths (self e)));
    reflexivity.
Qed.

(** A selector loop whose every turn leaves the object alone and appends
    the entry of its trial records the trials of all candidates. *)
Lemma trial_loop (P : ModelSelector -> Prop)
      (body : Z -> M env unit)
      (trial : ModelSelector -> Z -> option (float * model_t)) :
  (forall n e, P (self e) ->
     exists e', body n e = (Ok tt, e') /\ self e' = self e /\
                scores e' = scores e ++ entry (trial (self e) n)) ->
  forall l e, P (self e) ->
    exists e', for_each l body e = (Ok tt, e') /\ self e' = self e /\
               scores e' =
               scores e ++ flat_map (fun n => entry (trial (self e) n)) l.
Proof.
  intros Hbody l e HP.
  destruct (@for_each_invariant env Z body
              (fun done e' => self e' = self e /\
                 scores e' =
                 scores e ++ flat_map (fun n => entry (trial (self e) n)) done))
    with (l := l) (done := @nil Z) (s := e) as [e' [E [S1 S2]]].
  - intros done x e1 [S1 S2].
    destruct (Hbody x e1) as [e2 [E2 [S3 S4]]]; [now rewrite S1|].
    exists e2. split; [exact E2|]. split; [congruence|].
    rewrite S4, S2, S1, flat_map_app, <- app_assoc. simpl.
    now rewrite app_nil_r.
  - simpl. now rewrite app_nil_r.
  - exists e'. auto.
Qed.

Lemma BIC_try_run n e :
  exists e', try_except (BIC_try n) pass e = (Ok tt, e') /\
             self e' = self e /\
             scores e' = scores e ++ entry (BIC_trial (self e) n).
Proof.
  unfold try_except, BIC_try, bind. rewrite base_model_run.
  unfold base_model_value, BIC_trial.
  destruct (fit_model (self e) n (X (self e)) (lengths (self e))) as [m|];
    simpl.
  - unfold lift. destruct (hmm_score m (X (self e)) (lengths (self e)));
      simpl; eexists; (split; [reflexivity|]); simpl; split; auto.
    now rewrite app_nil_r.
  - eexists. split; [reflexivity|]. simpl. now rewrite app_nil_r.
Qed.

(** A raise anywhere in a loop leaves what every turn leaves. *)
Lemma for_each_preserves A (body : A -> M env unit) (P : env -> Prop) :
  (forall x e, P e -> P (snd (body x e))) ->
  forall l e, P e -> P (snd (for_each l body e)).
Proof.
  intros Hbody. induction l as [|x l IH]; intros e HP; simpl.
  - exact HP.
  - unfold bind. specialize (Hbody x e HP).
    destruct (body x e) as [[[]|ex] e1]; simpl in *; auto.
Qed.

Lemma DIC_other_run (m : model_t) word X' lengths' e :
  DIC_other (PyModel m) (word, (X', lengths')) e =
  if negb (String.eqb word (this_word (self e))) then
    match hmm_score m X' lengths' with
    | Some x => (Ok tt, snd (set_scores_temp (scores_temp e ++ [x]) e))
    | None => (Raise LibraryError, e)
    end
  else (Ok tt, e).
Proof.
  unfold DIC_other, bind, get, score, lift, scores_temp_append.
  destruct (negb (word =? this_word (self e))%string); [|reflexivity].
  destruct (hmm_score m X' lengths'); reflexivity.
Qed.

(** The loop over the other words: all of them scored, or the first
    failure raised with nothing but [scores_temp] touched. *)
Lemma DIC_other_loop (m : model_t) (l : dict string Xlengths) : forall e,
  exists e',
    self e' = self e /\ scores e' = scores e /\
    match score_all m (others_of (this_word (self e)) l) with
    | Some xs =>
        for_each l (DIC_other (PyModel m)) e = (Ok tt, e') /\
        scores_temp e' = scores_temp e ++ xs
    | None =>
        exists ex, for_each l (DIC_other (PyModel m)) e = (Raise ex, e')
    end.
Proof.
  induction l as [|[word [X' lengths']] l IH]; intros e.
  - exists e. simpl. rewrite app_nil_r. auto.
  - unfold others_of in *. rewrite for_each_cons, DIC_other_run.
    simpl filter.
    destruct (negb (word =? this_word (self e))%string) eqn:W.
    + simpl map. simpl score_all.
      destruct (hmm_score m X' lengths') as [x|] eqn:Sx.
      * destruct (IH (snd (set_scores_temp (scores_temp e ++ [x]) e)))
          as [e' [S1 [S2 H]]].
        simpl in S1, S2, H. exists e'. split; [exact S1|].
        split; [exact S2|].
        destruct (score_all m _) as [xs|].
        -- destruct H as [H1 H2]. split; [exact H1|].
           rewrite H2, <- app_assoc. reflexivity.
        -- exact H.
      * exists e. split; [reflexivity|]. split; [reflexivity|].
        exists LibraryError. reflexivity.
    + apply IH.
Qed.

Lemma DIC_other_None_run item e :
  exists ex, DIC_other PyNone item e = (Raise ex, e) \/
             DIC_other PyNone item e = (Ok tt, e).
Proof.
  destruct item as [word [X' lengths']].
  unfold DIC_other, bind, get, score, raise, pass, ret.
  exists AttributeError.
  destruct (negb (word =? this_word (self e))%string); auto.
Qed.

Lemma DIC_other_None_loop l : forall e,
  fst (for_each l (DIC_other PyNone) e) = Ok tt ->
  for_each l (DIC_other PyNone) e = (Ok tt, e).
Proof.
  induction l as [|item l IH]; intros e.
  - reflexivity.
  - rewrite for_each_cons.
    destruct (DIC_other_None_run item e) as [ex [-> | ->]].
    + discriminate.
    + apply IH.
Qed.

Lemma DIC_other_None_frame l e :
  self (snd (for_each l (DIC_other PyNone) e)) = self e /\
  scores (snd (for_each l (DIC_other PyNone) e)) = scores e.
Proof.
  apply (@for_each_preserves _ (DIC_other PyNone)
           (fun e' => self e' = self e /\ scores e' = scores e)); auto.
  intros x e1 H. destruct (DIC_other_None_run x e1) as [ex [-> | ->]]; auto.
Qed.

Lemma DIC_try_run n e :
  exists e', try_except (DIC_try n) pass e = (Ok tt, e') /\
             self e' = self e /\
             scores e' = scores e ++ entry (DIC_trial (self e) n).
Proof.
  unfold try_except, DIC_try. unfold bind at 1. rewrite base_model_run.
  unfold base_model_value, DIC_trial, other_words.
  destruct (fit_model (self e) n (X (self e)) (lengths (self e))) as [m|].
  - unfold bind at 1. unfold set_model at 1, modify at 1.
    unfold bind at 1. unfold set_scores_temp at 1, modify at 1.
    unfold bind at 1. unfold get at 1. unfold bind at 1.
    cbn [self scores scores_temp likelihoods model].
    match goal with
    | |- context [for_each _ _ ?e1] =>
        destruct (DIC_other_loop m (hwords (self e)) e1) as [e2 [S1 [S2 H]]]
    end.
    cbn [self scores scores_temp likelihoods model] in S1, S2, H.
    destruct (score_all m (others_of (this_word (self e)) (hwords (self e))))
      as [xs|].
    + destruct H as [H1 H2]. rewrite H1. simpl in H2.
      unfold bind, get, score, lift. rewrite S1.
      destruct (hmm_score m (X (self e)) (lengths (self e))) as [own|];
        simpl.
      * eexists. split; [reflexivity|]. simpl.
        rewrite S1, S2, H2. auto.
      * eexists. split; [reflexivity|]. rewrite app_nil_r. auto.
    + destruct H as [ex H]. rewrite H. simpl.
      exists e2. rewrite app_nil_r. auto.
  - unfold bind at 1. unfold set_model at 1, modify at 1.
    unfold bind at 1. unfold set_scores_temp at 1, modify at 1.
    unfold bind at 1. unfold get at 1. unfold bind at 1.
    cbn [self scores scores_temp likelihoods model].
    simpl entry. rewrite app_nil_r.
    match goal with
    | |- context [for_each ?l ?b ?e1] =>
        pose proof (@DIC_other_None_frame l e1) as [F1 F2];
        pose proof (@DIC_other_None_loop l e1) as L;
        destruct (for_each l b e1) as [[[]|ex] e2] eqn:E
    end.
    + specialize (L eq_refl). inversion L; subst e2.
      unfold bind, get, score, raise. simpl. eexists. split; [reflexivity|].
      auto.
    + simpl in F1, F2. simpl. exists e2. auto.
Qed.

(** What [select()] returns once the loop over the candidates has left
    [l] in [scores]. *)
Definition chosen
           (pick : float * value -> list (float * value) -> float * value)
           (l : list (float * value)) (s : ModelSelector) : value :=
  match l with
  | first :: rest => snd (pick first rest)
  | [] => PyInt (n_constant s)
  end.

(** Runs the first statement of a sequence when it is an assignment or
    a read of the activation. *)
Ltac step :=
  rewrite bind_run;
  unfold set_self, set_scores, set_scores_temp, set_likelihoods, set_model,
         modify, get;
  cbn [self scores scores_temp likelihoods model].

Lemma select_BIC_run s :
  exists e',
    run_select SelectorBIC s =
    (Ok (chosen (@py_min_by value) (recorded BIC_trial s) s), e') /\
    self e' = s /\ scores e' = recorded BIC_trial s.
Proof.
  unfold run_select, select_body, select_BIC, enter. step. step.
  rewrite bind_run.
  match goal with
  | |- context [for_each ?cands ?b ?e1] =>
      destruct (@trial_loop (fun _ => True) b BIC_trial
                            (fun n e _ => BIC_try_run n e) cands e1 I)
        as [e' [E [S1 S2]]]
  end.
  cbn [self scores] in E, S1, S2. rewrite E.
  unfold bind, get. exists e'. rewrite S1, S2. unfold recorded, candidates.
  simpl app. split; [|auto].
  unfold chosen. destruct (flat_map _ _); reflexivity.
Qed.

Lemma select_DIC_run s :
  exists e',
    run_select SelectorDIC s =
    (Ok (chosen (@py_max_by value) (recorded DIC_trial s) s), e') /\
    self e' = s /\ scores e' = recorded DIC_trial s.
Proof.
  unfold run_select, select_body, select_DIC, enter. step. step.
  rewrite bind_run.
  match goal with
  | |- context [for_each ?cands ?b ?e1] =>
      destruct (@trial_loop (fun _ => True) b DIC_trial
                            (fun n e _ => DIC_try_run n e) cands e1 I)
        as [e' [E [S1 S2]]]
  end.
  cbn [self scores] in E, S1, S2. rewrite E.
  unfold bind, get. exists e'. rewrite S1, S2. unfold recorded, candidates.
  simpl app. split; [|auto].
  unfold chosen. destruct (flat_map _ _); reflexivity.
Qed.

Lemma select_Constant_run s :
  run_select SelectorConstant s =
  (Ok (base_model_value s (n_constant s)), enter s).
Proof.
  unfold run_select, select_body, select_Constant, bind, get.
  now rewrite base_model_run.
Qed.

(** The path of [SelectorCV.select] without folds. *)
Lemma CV_try_single_run n e :
  (List.length (sequences (self e)) <= 2)%nat ->
  exists e', try_except (CV_try n) pass e = (Ok tt, e') /\
             self e' = self e /\
             scores e' = scores e ++ entry (CV_single_trial (self e) n).
Proof.
  intros Hlen. unfold try_except, CV_try. step.
  replace (2 <? List.length (sequences (self e)))%nat with false
    by (symmetry; apply Nat.ltb_ge; exact Hlen).
  rewrite bind_run. rewrite bind_run. rewrite base_model_run.
  unfold base_model_value, CV_single_trial.
  destruct (fit_model (self e) n (X (self e)) (lengths (self e))) as [m|].
  - step. step. rewrite bind_run. unfold score, lift.
    destruct (hmm_score m (X (self e)) (lengths (self e))) as [x|]; simpl.
    + eexists. split; [reflexivity|]. simpl. auto.
    + eexists. split; [reflexivity|]. simpl. rewrite app_nil_r. auto.
  - simpl. eexists. split; [reflexivity|]. simpl. rewrite app_nil_r. auto.
Qed.

Lemma select_CV_single_run s :
  (List.length (sequences s) <= 2)%nat ->
  exists e',
    run_select SelectorCV s =
    (Ok (chosen (@py_max_by value) (recorded CV_single_trial s) s), e') /\
    self e' = s /\ scores e' = recorded CV_single_trial s.
Proof.
  intros Hlen.
  unfold run_select, select_body, select_CV, enter. step. step. step.
  rewrite bind_run.
  match goal with
  | |- context [for_each ?cands ?b ?e1] =>
      destruct (@trial_loop
                  (fun s' => (List.length (sequences s') <= 2)%nat)
                  b CV_single_trial
                  (fun n e H => @CV_try_single_run n e H) cands e1 Hlen)
        as [e' [E [S1 S2]]]
  end.
  cbn [self scores] in E, S1, S2. rewrite E.
  unfold bind, get. exists e'. rewrite S1, S2. unfold recorded, candidates.
  simpl app. split; [|auto].
  unfold chosen. destruct (flat_map _ _); reflexivity.
Qed.

(** ** What a call leaves of the object *)

(** Every attribute but the whole-word data [X] and [lengths]. *)
Definition other_attributes (s : ModelSelector) :=
  (words s, hwords s, sequences s, this_word s,
   (n_constant s, min_n_components s, max_n_components s,
    random_state s, verbose s)).

Lemma other_attributes_assign v s :
  other_attributes (assign_X_lengths v s) = other_attributes s.
Proof. reflexivity. Qed.

Lemma try_except_pass (body : M env unit) e :
  try_except body pass e = (Ok tt, snd (body e)).
Proof.
  unfold try_except, pass, ret. destruct (body e) as [[[]|ex] e'];
    reflexivity.
Qed.

Lemma base_model_frame n e : snd (base_model n e) = e.
Proof. now rewrite base_model_run. Qed.

(** A fold rebinds [self.X] and [self.lengths] and nothing else of the
    object, whether it completes or not. *)
Lemma CV_fold_frame n fold e :
  other_attributes (self (snd (CV_fold n fold e))) =
  other_attributes (self e).
Proof.
  destruct fold as [train_index test_index]. unfold CV_fold.
  rewrite bind_run. unfold get at 1.
  rewrite bind_run. unfold lift at 1.
  destruct (combine_sequences train_index (sequences (self e)))
    as [train|]; [|reflexivity].
  unfold ret at 1. step. step.
  rewrite bind_run. unfold lift at 1.
  change (sequences (assign_X_lengths train (self e)))
    with (sequences (self e)).
  destruct (combine_sequences test_index (sequences (self e)))
    as [[X_test lengths_test]|]; [|reflexivity].
  unfold ret at 1. rewrite bind_run, base_model_run.
  step. rewrite bind_run.
  match goal with
  | |- context [score hmm_score ?v ?a ?b ?e1] =>
      destruct (score hmm_score v a b e1) as [[x|ex] e2] eqn:E;
      assert (e2 = e1)
        by (unfold score, lift, ret, raise in E;
            destruct v; try (inversion E; reflexivity);
            destruct (hmm_score _ _ _); inversion E; reflexivity);
      subst e2
  end; [|reflexivity].
  unfold likelihoods_append. step.
  destruct (likelihoods e); reflexivity.
Qed.

Lemma CV_try_frame n e :
  other_attributes (self (snd (CV_try n e))) = other_attributes (self e).
Proof.
  unfold CV_try. step. rewrite bind_run.
  assert (F : forall e1, other_attributes (self e1) = other_attributes (self e) ->
              other_attributes
                (self (snd ((e0 <- get ;;
                             m <- read_model ;;
                             scores_append (np_mean (likelihoods e0), m)) e1)))
              = other_attributes (self e)).
  { intros e1 H. step. unfold read_model. rewrite bind_run. step.
    unfold lift. destruct (model e1); simpl; exact H. }
  destruct (2 <? List.length (sequences (self e)))%nat.
  - rewrite bind_run. unfold lift at 1.
    destruct (KFold_split (sequences (self e))) as [folds|]; [|reflexivity].
    unfold ret at 1.
    pose proof (@for_each_preserves _ (CV_fold n)
                  (fun e' => other_attributes (self e') =
                             other_attributes (self e))) as L.
    specialize (L (fun x e1 H => eq_trans (CV_fold_frame n x e1) H)
                  folds e eq_refl).
    destruct (for_each folds (CV_fold n) e) as [[[]|ex] e1];
      simpl in L; [|exact L].
    now apply F.
  - rewrite bind_run, base_model_run. step. step. rewrite bind_run.
    match goal with
    | |- context [score hmm_score ?v ?a ?b ?e1] =>
        destruct (score hmm_score v a b e1) as [[x|ex] e2] eqn:E;
        assert (e2 = e1)
          by (unfold score, lift, ret, raise in E;
              destruct v; try (inversion E; reflexivity);
              destruct (hmm_score _ _ _); inversion E; reflexivity);
        subst e2
    end; [|reflexivity].
    cbn [self scores scores_temp likelihoods model]. now apply F.
Qed.

(** [SelectorCV.select] returns, whatever the folds do, and rebinds at
    most [self.X] and [self.lengths]. *)
Lemma select_CV_run s :
  exists e',
    run_select SelectorCV s =
    (Ok (chosen (@py_max_by value) (scores e') s), e') /\
    other_attributes (self e') = other_attributes s.
Proof.
  unfold run_select, select_body, select_CV, enter. step. step. step.
  rewrite bind_run.
  match goal with
  | |- context [for_each ?cands ?b ?e1] =>
      destruct (@for_each_invariant env Z b
                  (fun _ e' => other_attributes (self e') =
                               other_attributes s))
        with (l := cands) (done := @nil Z) (s := e1) as [e' [E F]];
        [|reflexivity|]
  end.
  - intros done n e1 H. exists (snd (CV_try n e1)).
    split; [apply try_except_pass|]. now rewrite CV_try_frame.
  - rewrite E. step. exists e'. split; [|exact F].
    assert (N : n_constant (self e') = n_constant s)
      by (unfold other_attributes in F; congruence).
    unfold chosen. rewrite <- N. destruct (scores e'); reflexivity.
Qed.

(** ** Cross-validation with folds *)

(** One fold of candidate [n]: a fit on the training sequences, scored on
    the held-out ones. *)
Definition fold_trial (s : ModelSelector) (n : Z)
           (fold : list nat * list nat) : option (float * model_t) :=
  let '(train_index, test_index) := fold in
  match combine_sequences train_index (sequences s),
        combine_sequences test_index (sequences s) with
  | Some (X_train, lengths_train), Some (X_test, lengths_test) =>
      match fit_model s n X_train lengths_train with
      | Some m =>
          match hmm_score m X_test lengths_test with
          | Some x => Some (x, m)
          | None => None
          end
      | None => None
      end
  | _, _ => None
  end.

(** The folds of candidate [n] in order, up to the first that fails: what
    [likelihoods] holds afterwards when it held [acc] before, and the model
    of the last fold when all of them completed. *)
Fixpoint run_folds (s : ModelSelector) (n : Z)
         (folds : list (list nat * list nat))
         (acc : list float) (last : option model_t)
  : list float * option model_t :=
  match folds with
  | [] => (acc, last)
  | fold :: r =>
      match fold_trial s n fold with
      | Some (x, m) => run_folds s n r (acc ++ [x]) (Some m)
      | None => (acc, None)
      end
  end.

(** The entry of a candidate whose folds ended in [t]. *)
Definition CV_entry (t : list float * option model_t)
  : list (float * value) :=
  match snd t with
  | Some m => [(np_mean (LList (fst t)), PyModel m)]
  | None => []
  end.

(** [scores] after the candidates [cands], [likelihoods] holding [acc]
    before the first of them. *)
Fixpoint CV_loop (s : ModelSelector) (folds : list (list nat * list nat))
         (cands : list Z) (acc : list float) : list (float * value) :=
  match cands with
  | [] => []
  | n :: r =>
      let t := run_folds s n folds acc None in
      CV_entry t ++ CV_loop s folds r (fst t)
  end.

Lemma fold_trial_ext s1 s2 n fold :
  other_attributes s1 = other_attributes s2 ->
  fold_trial s1 n fold = fold_trial s2 n fold.
Proof.
  intros H.
  assert (Hs : sequences s1 = sequences s2)
    by (unfold other_attributes in H; congruence).
  assert (Hr : random_state s1 = random_state s2)
    by (unfold other_attributes in H; congruence).
  destruct fold. unfold fold_trial, fit_model. now rewrite Hs, Hr.
Qed.

Lemma run_folds_ext s1 s2 n folds :
  other_attributes s1 = other_attributes s2 ->
  forall acc last,
    run_folds s1 n folds acc last = run_folds s2 n folds acc last.
Proof.
  intros H. induction folds as [|fold r IH]; intros acc last; simpl.
  - reflexivity.
  - rewrite (fold_trial_ext n fold H).
    destruct (fold_trial s2 n fold) as [[x m]|]; auto.
Qed.

Lemma CV_loop_ext s1 s2 folds cands :
  other_attributes s1 = other_attributes s2 ->
  forall acc, CV_loop s1 folds cands acc = CV_loop s2 folds cands acc.
Proof.
  intros H. induction cands as [|n r IH]; intros acc; simpl.
  - reflexivity.
  - rewrite (run_folds_ext n folds H). now rewrite IH.
Qed.

(** One fold, statement by statement. *)
Lemma CV_fold_eq n train_index test_index e :
  CV_fold n (train_index, test_index) e =
  match combine_sequences train_index (sequences (self e)) with
  | None => (Raise IndexError, e)
  | Some train =>
      let e1 := snd (set_self (assign_X_lengths train (self e)) e) in
      match combine_sequences test_index (sequences (self e)) with
      | None => (Raise IndexError, e1)
      | Some (X_test, lengths_test) =>
          match fit_model (self e) n (fst train) (snd train) with
          | None => (Raise AttributeError, snd (set_model PyNone e1))
          | Some m =>
              let e2 := snd (set_model (PyModel m) e1) in
              match hmm_score m X_test lengths_test with
              | None => (Raise LibraryError, e2)
              | Some x => likelihoods_append x e2
              end
          end
      end
  end.
Proof.
  unfold CV_fold. rewrite bind_run. unfold get at 1.
  rewrite bind_run. unfold lift at 1.
  destruct (combine_sequences train_index (sequences (self e)))
    as [train|]; [|reflexivity].
  unfold ret at 1. step. step.
  rewrite bind_run. unfold lift at 1.
  change (sequences (assign_X_lengths train (self e)))
    with (sequences (self e)).
  destruct (combine_sequences test_index (sequences (self e)))
    as [[X_test lengths_test]|]; [|reflexivity].
  unfold ret at 1. rewrite bind_run, base_model_run.
  unfold base_model_value.
  cbn [self scores scores_temp likelihoods model].
  change (fit_model (assign_X_lengths train (self e)) n
            (X (assign_X_lengths train (self e)))
            (lengths (assign_X_lengths train (self e))))
    with (fit_model (self e) n (fst train) (snd train)).
  destruct (fit_model (self e) n (fst train) (snd train)) as [m|].
  - step. rewrite bind_run. unfold score, lift.
    destruct (hmm_score m X_test lengths_test) as [x|]; reflexivity.
  - reflexivity.
Qed.

Lemma CV_fold_run n fold e acc :
  likelihoods e = LList acc ->
  exists e',
    other_attributes (self e') = other_attributes (self e) /\
    scores e' = scores e /\
    match fold_trial (self e) n fold with
    | Some (x, m) =>
        CV_fold n fold e = (Ok tt, e') /\
        likelihoods e' = LList (acc ++ [x]) /\
        model e' = Some (PyModel m)
    | None =>
        (exists ex, CV_fold n fold e = (Raise ex, e')) /\
        likelihoods e' = LList acc
    end.
Proof.
  intros Hl. destruct fold as [train_index test_index].
  rewrite CV_fold_eq. unfold fold_trial.
  destruct (combine_sequences train_index (sequences (self e)))
    as [[X_train lengths_train]|].
  2:{ exists e. repeat split; eauto. }
  destruct (combine_sequences test_index (sequences (self e)))
    as [[X_test lengths_test]|].
  2:{ eexists. split; [|split; [|split; [eexists; reflexivity|]]]; auto. }
  cbn [fst snd].
  destruct (fit_model (self e) n X_train lengths_train) as [m|].
  2:{ eexists. split; [|split; [|split; [eexists; reflexivity|]]]; auto. }
  destruct (hmm_score m X_test lengths_test) as [x|].
  2:{ eexists. split; [|split; [|split; [eexists; reflexivity|]]]; auto. }
  unfold likelihoods_append. rewrite bind_run. unfold get at 1.
  cbn [set_self set_model modify snd likelihoods]. rewrite Hl.
  eexists. split; [|split; [|split; [reflexivity|]]]; auto.
Qed.

Lemma CV_folds_rest n r : forall e acc m,
  likelihoods e = LList acc ->
  model e = Some (PyModel m) ->
  exists e',
    other_attributes (self e') = other_attributes (self e) /\
    scores e' = scores e /\
    likelihoods e' = LList (fst (run_folds (self e) n r acc (Some m))) /\
    match snd (run_folds (self e) n r acc (Some m)) with
    | Some m' =>
        for_each r (CV_fold n) e = (Ok tt, e') /\
        model e' = Some (PyModel m')
    | None => exists ex, for_each r (CV_fold n) e = (Raise ex, e')
    end.
Proof.
  induction r as [|fold r IH]; intros e acc m Hl Hm.
  - exists e. simpl. auto.
  - rewrite for_each_cons. simpl run_folds.
    destruct (CV_fold_run n fold e Hl) as [e1 [A1 [S1 H]]].
    destruct (fold_trial (self e) n fold) as [[x m1]|].
    + destruct H as [E1 [L1 M1]]. rewrite E1.
      destruct (IH e1 _ _ L1 M1) as [e' [A2 [S2 [L2 H2]]]].
      rewrite (run_folds_ext n r A1) in L2, H2.
      exists e'.
      split; [congruence|split; [congruence|split; [congruence|exact H2]]].
    + destruct H as [[ex E1] L1]. rewrite E1. exists e1. simpl.
      repeat split; eauto.
Qed.

Lemma CV_folds_run n folds e acc :
  folds <> [] ->
  likelihoods e = LList acc ->
  exists e',
    other_attributes (self e') = other_attributes (self e) /\
    scores e' = scores e /\
    likelihoods e' = LList (fst (run_folds (self e) n folds acc None)) /\
    match snd (run_folds (self e) n folds acc None) with
    | Some m' =>
        for_each folds (CV_fold n) e = (Ok tt, e') /\
        model e' = Some (PyModel m')
    | None => exists ex, for_each folds (CV_fold n) e = (Raise ex, e')
    end.
Proof.
  intros Hne Hl. destruct folds as [|fold r]; [congruence|].
  rewrite for_each_cons. simpl run_folds.
  destruct (CV_fold_run n fold e Hl) as [e1 [A1 [S1 H]]].
  destruct (fold_trial (self e) n fold) as [[x m1]|].
  - destruct H as [E1 [L1 M1]]. rewrite E1.
    destruct (CV_folds_rest n r e1 L1 M1) as [e' [A2 [S2 [L2 H2]]]].
    rewrite (run_folds_ext n r A1) in L2, H2.
    exists e'.
      split; [congruence|split; [congruence|split; [congruence|exact H2]]].
  - destruct H as [[ex E1] L1]. rewrite E1. exists e1. simpl.
    repeat split; eauto.
Qed.

Lemma CV_try_folds_run n e folds acc :
  (2 < List.length (sequences (self e)))%nat ->
  KFold_split (sequences (self e)) = Some folds ->
  folds <> [] ->
  likelihoods e = LList acc ->
  exists e',
    try_except (CV_try n) pass e = (Ok tt, e') /\
    other_attributes (self e') = other_attributes (self e) /\
    likelihoods e' = LList (fst (run_folds (self e) n folds acc None)) /\
    scores e' = scores e ++ CV_entry (run_folds (self e) n folds acc None).
Proof.
  intros Hlen HK Hne Hl. unfold try_except, CV_try. step.
  replace (2 <? List.length (sequences (self e)))%nat with true
    by (symmetry; apply Nat.ltb_lt; exact Hlen).
  rewrite bind_run. rewrite bind_run. rewrite HK.
  unfold lift at 1. unfold ret at 1.
  destruct (CV_folds_run n e Hne Hl) as [e1 [A [S [L H]]]].
  unfold CV_entry.
  destruct (snd (run_folds (self e) n folds acc None)) as [m|].
  - destruct H as [E Hm]. rewrite E. step.
    unfold read_model. rewrite bind_run. step. rewrite Hm.
    unfold lift, ret at 1. unfold scores_append. step.
    eexists. split; [reflexivity|].
    cbn [snd self scores scores_temp likelihoods model].
    rewrite L, S. auto.
  - destruct H as [ex E]. rewrite E. exists e1. rewrite app_nil_r. auto.
Qed.

Lemma CV_candidates_run folds cands : forall e acc,
  (2 < List.length (sequences (self e)))%nat ->
  KFold_split (sequences (self e)) = Some folds ->
  folds <> [] ->
  likelihoods e = LList acc ->
  exists e',
    for_each cands (fun n => try_except (CV_try n) pass) e = (Ok tt, e') /\
    other_attributes (self e') = other_attributes (self e) /\
    scores e' = scores e ++ CV_loop (self e) folds cands acc.
Proof.
  induction cands as [|n r IH]; intros e acc Hlen HK Hne Hl.
  - exists e. simpl. rewrite app_nil_r. auto.
  - rewrite for_each_cons.
    destruct (CV_try_folds_run n e Hlen HK Hne Hl) as [e1 [E [A [L S]]]].
    rewrite E.
    assert (Hs : sequences (self e1) = sequences (self e))
      by (unfold other_attributes in A; congruence).
    destruct (IH e1 (fst (run_folds (self e) n folds acc None)))
      as [e' [E' [A' S']]]; try (rewrite Hs; assumption); auto.
    exists e'. split; [exact E'|]. split; [congruence|].
    rewrite S', S, (CV_loop_ext folds r A), <- app_assoc. reflexivity.
Qed.

(** With folds, [scores] ends as [CV_loop] says: the criterion of each
    candidate is the mean of everything [likelihoods] has gathered since
    the first candidate. *)
Lemma select_CV_folds_run s folds :
  (2 < List.length (sequences s))%nat ->
  KFold_split (sequences s) = Some folds ->
  folds <> [] ->
  exists e',
    run_select SelectorCV s =
    (Ok (chosen (@py_max_by value) (CV_loop s folds (candidates s) []) s),
     e') /\
    scores e' = CV_loop s folds (candidates s) [].
Proof.
  intros Hlen HK Hne.
  unfold run_select, select_body, select_CV, enter. step. step. step.
  rewrite bind_run.
  match goal with
  | |- context [for_each ?cands ?b ?e1] =>
      destruct (@CV_candidates_run folds cands e1 [])
        as [e' [E [A S]]]; auto
  end.
  cbn [self scores] in E, A, S. rewrite E. step.
  exists e'. rewrite S. unfold candidates. simpl app. split; [|reflexivity].
  assert (N : n_constant (self e') = n_constant s)
    by (unfold other_attributes in A; congruence).
  unfold chosen. rewrite N. destruct (CV_loop _ _ _ _); reflexivity.
Qed.

(** Whether the folds of a candidate complete does not depend on what
    was gathered before. *)
Lemma run_folds_completes s n folds : forall acc acc' last,
  snd (run_folds s n folds acc last) = snd (run_folds s n folds acc' last).
Proof.
  induction folds as [|fold r IH]; intros acc acc' last; simpl.
  - reflexivity.
  - destruct (fold_trial s n fold) as [[x m]|]; auto.
Qed.

Lemma fold_trial_n_components s n fold x m :
  fold_trial s n fold = Some (x, m) -> n_components m = n.
Proof.
  destruct fold as [train_index test_index]. unfold fold_trial.
  destruct (combine_sequences train_index _) as [[? ?]|]; [|discriminate].
  destruct (combine_sequences test_index _) as [[? ?]|]; [|discriminate].
  destruct (fit_model s n _ _) as [m'|] eqn:F; [|discriminate].
  destruct (hmm_score m' _ _); [|discriminate].
  intros H. inversion H; subst. eapply fit_model_n_components; eauto.
Qed.

Lemma run_folds_n_components s n folds : forall acc last m,
  snd (run_folds s n folds acc last) = Some m ->
  last = Some m \/ n_components m = n.
Proof.
  induction folds as [|fold r IH]; intros acc last m; simpl.
  - auto.
  - destruct (fold_trial s n fold) as [[x m']|] eqn:F; [|discriminate].
    intros H. apply IH in H. destruct H as [H|H]; [|auto].
    inversion H; subst. right. eapply fold_trial_n_components; eauto.
Qed.

Lemma CV_loop_In s folds cands : forall acc v x,
  In (v, x) (CV_loop s folds cands acc) ->
  exists n m, In n cands /\ x = PyModel m /\ n_components m = n.
Proof.
  induction cands as [|n r IH]; intros acc v x; simpl.
  - tauto.
  - intros H. apply in_app_or in H. destruct H as [H|H].
    + unfold CV_entry in H.
      destruct (snd (run_folds s n folds acc None)) as [m|] eqn:R;
        [|destruct H].
      destruct H as [H|[]]. inversion H; subst.
      apply run_folds_n_components in R.
      destruct R as [R|R]; [discriminate|]. exists n, m. auto.
    + apply IH in H. destruct H as [n' [m [Hn H]]]. exists n', m. auto.
Qed.

Lemma CV_loop_nonempty s folds cands : forall acc n,
  In n cands ->
  snd (run_folds s n folds [] None) <> None ->
  CV_loop s folds cands acc <> [].
Proof.
  induction cands as [|n' r IH]; intros acc n Hin Hc; simpl.
  - destruct Hin.
  - destruct Hin as [->|Hin].
    + rewrite (run_folds_completes s n folds [] acc) in Hc.
      unfold CV_entry.
      destruct (snd (run_folds s n folds acc None)); [discriminate|tauto].
    + intros H. apply app_eq_nil in H. destruct H as [_ H].
      revert H. eapply IH; eauto.
Qed.

(** ** The selected model *)

Lemma chosen_min trial s n v m :
  min_n_components s <= n <= max_n_components s ->
  trial s n = Some (v, m) ->
  exists n0 v0 m0,
    min_n_components s <= n0 <= max_n_components s /\
    trial s n0 = Some (v0, m0) /\
    chosen (@py_min_by value) (recorded trial s) s = PyModel m0 /\
    (v <? v0)%float = false.
Proof.
  intros Hn Ht.
  assert (Hin : In (v, PyModel m) (recorded trial s))
    by (apply recorded_In; eauto).
  unfold chosen. destruct (recorded trial s) as [|first rest] eqn:R;
    [destruct Hin|].
  destruct (py_min_by_least first rest) as [Hmem Hleast].
  destruct (py_min_by first rest) as [v0 x0] eqn:P.
  rewrite <- R in Hmem. apply recorded_In in Hmem.
  destruct Hmem as [n0 [m0 [Hn0 [Ht0 ->]]]].
  exists n0, v0, m0. repeat split; try tauto.
  apply (Hleast (v, PyModel m) Hin).
Qed.

Lemma chosen_max trial s n v m :
  min_n_components s <= n <= max_n_components s ->
  trial s n = Some (v, m) ->
  exists n0 v0 m0,
    min_n_components s <= n0 <= max_n_components s /\
    trial s n0 = Some (v0, m0) /\
    chosen (@py_max_by value) (recorded trial s) s = PyModel m0 /\
    (v0 <? v)%float = false.
Proof.
  intros Hn Ht.
  assert (Hin : In (v, PyModel m) (recorded trial s))
    by (apply recorded_In; eauto).
  unfold chosen. destruct (recorded trial s) as [|first rest] eqn:R;
    [destruct Hin|].
  destruct (py_max_by_greatest first rest) as [Hmem Hgreatest].
  destruct (py_max_by first rest) as [v0 x0] eqn:P.
  rewrite <- R in Hmem. apply recorded_In in Hmem.
  destruct Hmem as [n0 [m0 [Hn0 [Ht0 ->]]]].
  exists n0, v0, m0. repeat split; try tauto.
  apply (Hgreatest (v, PyModel m) Hin).
Qed.

Lemma BIC_trial_n_components s n v m :
  BIC_trial s n = Some (v, m) -> n_components m = n.
Proof.
  unfold BIC_trial.
  destruct (fit_model s n (X s) (lengths s)) as [m'|] eqn:F; [|discriminate].
  destruct (hmm_score m' _ _); [|discriminate].
  intros H. inversion H; subst. eapply fit_model_n_components; eauto.
Qed.

Lemma DIC_trial_n_components s n v m :
  DIC_trial s n = Some (v, m) -> n_components m = n.
Proof.
  unfold DIC_trial.
  destruct (fit_model s n (X s) (lengths s)) as [m'|] eqn:F; [|discriminate].
  destruct (score_all m' _); [|discriminate].
  destruct (hmm_score m' _ _); [|discriminate].
  intros H. inversion H; subst. eapply fit_model_n_components; eauto.
Qed.

Lemma CV_single_trial_n_components s n v m :
  CV_single_trial s n = Some (v, m) -> n_components m = n.
Proof.
  unfold CV_single_trial.
  destruct (fit_model s n (X s) (lengths s)) as [m'|] eqn:F; [|discriminate].
  destruct (hmm_score m' _ _); [|discriminate].
  intros H. inversion H; subst. eapply fit_model_n_components; eauto.
Qed.

Definition is_some {A} (o : option A) : bool :=
  match o with Some _ => true | None => false end.

Definition in_range (s : ModelSelector) (n : Z) : bool :=
  (min_n_components s <=? n) && (n <=? max_n_components s).

(** Candidate [n] is fitted and scored: for [SelectorConstant] the one fit
    with the constant; for the others a candidate of the range whose
    trial, with all its folds if it has any, goes through. *)
Definition completes (k : selector) (s : ModelSelector) (n : Z) : bool :=
  match k with
  | SelectorConstant =>
      (n =? n_constant s) && is_some (fit_model s n (X s) (lengths s))
  | SelectorBIC => in_range s n && is_some (BIC_trial s n)
  | SelectorDIC => in_range s n && is_some (DIC_trial s n)
  | SelectorCV =>
      in_range s n &&
      if (2 <? List.length (sequences s))%nat then
        match KFold_split (sequences s) with
        | Some folds => is_some (snd (run_folds s n folds [] None))
        | None => false
        end
      else is_some (CV_single_trial s n)
  end.

Lemma in_range_spec s n :
  in_range s n = true <->
  min_n_components s <= n <= max_n_components s.
Proof. unfold in_range. rewrite andb_true_iff. lia. Qed.

Lemma is_some_spec A (o : option A) :
  is_some o = true -> exists a, o = Some a.
Proof. destruct o; [eauto|discriminate]. Qed.

(** Once a candidate completes, what [select()] returns is a fitted model
    of the range, or of the constant for [SelectorConstant]. *)
Lemma select_model k s n :
  completes k s n = true ->
  exists m,
    fst (run_select k s) = Ok (PyModel m) /\
    (min_n_components s <= n_components m <= max_n_components s \/
     n_components m = n_constant s).
Proof.
  destruct k; unfold completes; intros H; apply andb_true_iff in H;
    destruct H as [Hn Hc].
  - rewrite select_Constant_run. unfold base_model_value.
    apply Z.eqb_eq in Hn. subst n.
    apply is_some_spec in Hc. destruct Hc as [m Hc]. rewrite Hc.
    exists m. split; [reflexivity|]. right.
    eapply fit_model_n_components; eauto.
  - apply in_range_spec in Hn. apply is_some_spec in Hc.
    destruct Hc as [[v m] Hc].
    destruct (chosen_min BIC_trial s Hn Hc) as [n0 [v0 [m0 [R [T [C _]]]]]].
    destruct (select_BIC_run s) as [e' [E _]]. rewrite E, C.
    exists m0. split; [reflexivity|]. left.
    now rewrite (BIC_trial_n_components _ _ T).
  - apply in_range_spec in Hn. apply is_some_spec in Hc.
    destruct Hc as [[v m] Hc].
    destruct (chosen_max DIC_trial s Hn Hc) as [n0 [v0 [m0 [R [T [C _]]]]]].
    destruct (select_DIC_run s) as [e' [E _]]. rewrite E, C.
    exists m0. split; [reflexivity|]. left.
    now rewrite (DIC_trial_n_components _ _ T).
  - apply in_range_spec in Hn.
    destruct (2 <? List.length (sequences s))%nat eqn:L.
    + apply Nat.ltb_lt in L.
      destruct (KFold_split (sequences s)) as [folds|] eqn:K;
        [|discriminate].
      assert (Hne : folds <> [])
        by (intros ->; simpl in Hc; discriminate).
      destruct (select_CV_folds_run s L K Hne) as [e' [E _]]. rewrite E.
      assert (Hc' : snd (run_folds s n folds [] None) <> None)
        by (destruct (snd (run_folds s n folds [] None));
            [discriminate|simpl in Hc; discriminate]).
      apply candidates_In in Hn.
      pose proof (@CV_loop_nonempty s folds (candidates s) [] n Hn Hc')
        as Hnon.
      unfold chosen.
      destruct (CV_loop s folds (candidates s) []) as [|first rest] eqn:C;
        [congruence|].
      destruct (py_max_by_greatest first rest) as [Hmem _].
      destruct (py_max_by first rest) as [v0 x0].
      rewrite <- C in Hmem. apply CV_loop_In in Hmem.
      destruct Hmem as [n0 [m0 [Hn0 [-> Hm0]]]].
      exists m0. split; [reflexivity|]. left.
      apply candidates_In in Hn0. simpl. lia.
    + apply Nat.ltb_ge in L. apply is_some_spec in Hc.
      destruct Hc as [[v m] Hc].
      destruct (chosen_max CV_single_trial s Hn Hc)
        as [n0 [v0 [m0 [R [T [C _]]]]]].
      destruct (select_CV_single_run s L) as [e' [E _]]. rewrite E, C.
      exists m0. split; [reflexivity|]. left.
      now rewrite (CV_single_trial_n_components _ _ T).
Qed.

(** ** Properties of [select()] *)

(** Whether the call goes through folds: [SelectorCV] on a word with more
    than two sequences. *)
Definition uses_folds (k : selector) (s : ModelSelector) : bool :=
  match k with
  | SelectorCV => (2 <? List.length (sequences s))%nat
  | _ => false
  end.

Lemma select_unchanged k s :
  uses_folds k s = false -> self (snd (run_select k s)) = s.
Proof.
  destruct k; cbn [uses_folds]; intros H.
  - now rewrite select_Constant_run.
  - destruct (select_BIC_run s) as [e' [E [S _]]]. now rewrite E.
  - destruct (select_DIC_run s) as [e' [E [S _]]]. now rewrite E.
  - apply Nat.ltb_ge in H.
    destruct (select_CV_single_run s H) as [e' [E [S _]]]. now rewrite E.
Qed.

Lemma select_other_attributes k s :
  other_attributes (self (snd (run_select k s))) = other_attributes s.
Proof.
  destruct k.
  - now rewrite select_Constant_run.
  - destruct (select_BIC_run s) as [e' [E [S _]]]. rewrite E. simpl.
    now rewrite S.
  - destruct (select_DIC_run s) as [e' [E [S _]]]. rewrite E. simpl.
    now rewrite S.
  - destruct (select_CV_run s) as [e' [E S]]. now rewrite E.
Qed.



(** C1, as the code has it: once a candidate is fitted and scored (for
    SelectorConstant: once the fit with the constant succeeds), every
    variant of select() returns a fitted model, and its state count lies
    within [min_n_components, max_n_components] or is the constant. *)
Theorem select_returns_model_when_a_candidate_completes k s n :
  completes k s n = true ->
  exists m,
    fst (select k s) = Ok (PyModel m) /\
    (min_n_components s <= n_components m <= max_n_components s \/
     n_components m = n_constant s).
Proof. intros H. unfold select. cbn [fst]. eapply select_model; eauto. Qed.

(** C3, as the code has it: every select() leaves all attributes of the
    selector but X and lengths as they were (the sequences, both word
    mappings, the word and the configuration), and leaves X and lengths
    too unless it is SelectorCV on a word with more than two sequences. *)
Theorem select_leaves_inputs_but_training_data k s :
  other_attributes (snd (select k s)) = other_attributes s /\
  (uses_folds k s = false -> snd (select k s) = s).
Proof.
  unfold select. cbn [snd]. split.
  - apply select_other_attributes.
  - apply select_unchanged.
Qed.

(** C5: SelectorBIC records, for every candidate n of the range that is
    fitted and scored, the value -2 * logL + p * log(N) with logL the
    log-likelihood of the model on the whole-word data it was fitted on,
    N the number of frames of that data and p = n^2 + 2*d*n - 1, d being
    the model's feature count; these are all it records, in the order of
    the candidates; and the model it returns is a recorded one whose value
    no recorded value is strictly below. *)
Theorem BIC_selects_minimum_criterion s n m logL :
  min_n_components s <= n <= max_n_components s ->
  fit_model s n (X s) (lengths s) = Some m ->
  hmm_score m (X s) (lengths s) = Some logL ->
  scores (snd (run_select SelectorBIC s)) = recorded BIC_trial s /\
  In (((-2.0) * logL
       + Z2F (n ^ 2 + 2 * n_features m * n - 1)
         * np_log (Z2F (Z.of_nat (List.length (X s)))))%float, PyModel m)
     (scores (snd (run_select SelectorBIC s))) /\
  exists n0 v0 m0,
    min_n_components s <= n0 <= max_n_components s /\
    BIC_trial s n0 = Some (v0, m0) /\
    fst (select SelectorBIC s) = Ok (PyModel m0) /\
    (((-2.0) * logL
      + Z2F (n ^ 2 + 2 * n_features m * n - 1)
        * np_log (Z2F (Z.of_nat (List.length (X s)))))%float <? v0)%float
    = false.
Proof.
  intros Hn Hf Hs.
  assert (Ht : BIC_trial s n =
               Some (BIC_score logL (List.length (X s)) n (n_features m), m))
    by (unfold BIC_trial; now rewrite Hf, Hs).
  destruct (select_BIC_run s) as [e' [E [_ S]]].
  unfold select. rewrite E. cbn [fst snd]. rewrite S.
  split; [reflexivity|]. split.
  - apply recorded_In. exists n, m. auto.
  - destruct (chosen_min BIC_trial s Hn Ht) as [n0 [v0 [m0 [R [T [C L]]]]]].
    exists n0, v0, m0. rewrite C. auto.
Qed.


(** C7: on a word with two sequences or fewer, SelectorCV asks for no
    folds: each candidate n of the range is fitted once on the whole-word
    data and scored on the same data, that one log-likelihood is the value
    recorded for it, the selector is left as it was, and the model
    returned is a recorded one of greatest value. *)
Theorem CV_without_folds_scores_once s :
  (List.length (sequences s) <= 2)%nat ->
  scores (snd (run_select SelectorCV s)) = recorded CV_single_trial s /\
  snd (select SelectorCV s) = s /\
  (forall n m logL,
     min_n_components s <= n <= max_n_components s ->
     fit_model s n (X s) (lengths s) = Some m ->
     hmm_score m (X s) (lengths s) = Some logL ->
     In (logL, PyModel m) (scores (snd (run_select SelectorCV s))) /\
     exists n0 v0 m0,
       min_n_components s <= n0 <= max_n_components s /\
       CV_single_trial s n0 = Some (v0, m0) /\
       fst (select SelectorCV s) = Ok (PyModel m0) /\
       (v0 <? logL)%float = false).
Proof.
  intros Hlen. destruct (select_CV_single_run s Hlen) as [e' [E [Hs S]]].
  unfold select. rewrite E. cbn [fst snd]. rewrite S.
  split; [reflexivity|]. split; [exact Hs|].
  intros n m logL Hn Hf Hsc.
  assert (Ht : CV_single_trial s n = Some (logL, m))
    by (unfold CV_single_trial; now rewrite Hf, Hsc).
  split.
  - apply recorded_In. exists n, m. auto.
  - destruct (chosen_max CV_single_trial s Hn Ht)
      as [n0 [v0 [m0 [R [T [C L]]]]]].
    exists n0, v0, m0. rewrite C. auto.
Qed.

(** With folds, [scores] ends as [CV_loop] computes it: the value recorded
    for a candidate is the mean of all the likelihoods gathered since the
    first candidate, its own folds and those of the candidates before
    it, and the result is the first greatest of these. *)
Theorem CV_with_folds_accumulates s folds :
  (2 < List.length (sequences s))%nat ->
  KFold_split (sequences s) = Some folds ->
  folds <> [] ->
  scores (snd (run_select SelectorCV s)) =
  CV_loop s folds (candidates s) [] /\
  fst (select SelectorCV s) =
  Ok (chosen (@py_max_by value) (CV_loop s folds (candidates s) []) s).
Proof.
  intros Hlen HK Hne.
  destruct (select_CV_folds_run s Hlen HK Hne) as [e' [E S]].
  unfold select. rewrite E. cbn [fst snd]. auto.
Qed.

(** ** Further properties of [select()] *)

Lemma recorded_nil trial s :
  (forall n, min_n_components s <= n <= max_n_components s ->
             trial s n = None) ->
  recorded trial s = [].
Proof.
  intros H. unfold recorded.
  assert (G : forall l, (forall n, In n l -> trial s n = None) ->
                        flat_map (fun n => entry (trial s n)) l = []).
  { induction l as [|n l IH]; intros Hl; simpl; [reflexivity|].
    rewrite (Hl n (or_introl eq_refl)). simpl. apply IH.
    intros n' Hn'. apply Hl. now right. }
  apply G. intros n Hn. apply H. now apply candidates_In.
Qed.

Lemma CV_loop_nil s folds cands : forall acc,
  (forall n, In n cands -> snd (run_folds s n folds [] None) = None) ->
  CV_loop s folds cands acc = [].
Proof.
  induction cands as [|n r IH]; intros acc H; simpl; [reflexivity|].
  unfold CV_entry.
  rewrite (run_folds_completes s n folds acc [] None).
  rewrite (H n (or_introl eq_refl)). simpl. apply IH.
  intros n' Hn'. apply H. now right.
Qed.

(** Without a fold to run, a candidate of [SelectorCV] changes nothing:
    the split raised, or it gave no fold and [model] is still unbound. *)
Lemma CV_try_no_fold_run n e :
  (2 < List.length (sequences (self e)))%nat ->
  KFold_split (sequences (self e)) = None \/
  (KFold_split (sequences (self e)) = Some [] /\ model e = None) ->
  try_except (CV_try n) pass e = (Ok tt, e).
Proof.
  intros Hlen HK. unfold try_except, CV_try. step.
  replace (2 <? List.length (sequences (self e)))%nat with true
    by (symmetry; apply Nat.ltb_lt; exact Hlen).
  rewrite bind_run. rewrite bind_run.
  destruct HK as [HK|[HK Hm]]; rewrite HK.
  - reflexivity.
  - unfold lift at 1. unfold ret at 1. cbn [for_each]. unfold ret at 1.
    step. unfold read_model. rewrite bind_run. step. rewrite Hm.
    reflexivity.
Qed.

Lemma CV_candidates_no_fold_run cands e :
  (2 < List.length (sequences (self e)))%nat ->
  KFold_split (sequences (self e)) = None \/
  (KFold_split (sequences (self e)) = Some [] /\ model e = None) ->
  for_each cands (fun n => try_except (CV_try n) pass) e = (Ok tt, e).
Proof.
  intros Hlen HK. induction cands as [|n r IH]; [reflexivity|].
  rewrite for_each_cons, (CV_try_no_fold_run n e Hlen HK). exact IH.
Qed.

Lemma select_CV_no_fold_run s :
  (2 < List.length (sequences s))%nat ->
  KFold_split (sequences s) = None \/ KFold_split (sequences s) = Some [] ->
  fst (run_select SelectorCV s) = Ok (PyInt (n_constant s)) /\
  self (snd (run_select SelectorCV s)) = s.
Proof.
  intros Hlen HK.
  unfold run_select, select_body, select_CV, enter. step. step. step.
  rewrite bind_run.
  match goal with
  | |- context [for_each ?cands ?b ?e1] =>
      rewrite (@CV_candidates_no_fold_run cands e1 Hlen)
  end.
  - step. split; reflexivity.
  - cbn [self model]. tauto.
Qed.

Lemma select_fallback k s :
  (forall n, completes k s n = false) ->
  fst (run_select k s) =
  Ok (match k with
      | SelectorConstant => PyNone
      | _ => PyInt (n_constant s)
      end).
Proof.
  intros H.
  assert (R : forall trial,
             (forall n, in_range s n && is_some (trial s n) = false) ->
             recorded trial s = []).
  { intros trial Ht. apply recorded_nil. intros n Hn.
    specialize (Ht n). apply in_range_spec in Hn. rewrite Hn in Ht.
    destruct (trial s n); [discriminate|reflexivity]. }
  destruct k.
  - rewrite select_Constant_run. unfold base_model_value.
    specialize (H (n_constant s)). unfold completes in H.
    rewrite Z.eqb_refl in H.
    destruct (fit_model s (n_constant s) (X s) (lengths s));
      [discriminate|reflexivity].
  - destruct (select_BIC_run s) as [e' [E _]]. rewrite E.
    now rewrite (R BIC_trial H).
  - destruct (select_DIC_run s) as [e' [E _]]. rewrite E.
    now rewrite (R DIC_trial H).
  - unfold completes in H.
    destruct (2 <? List.length (sequences s))%nat eqn:L.
    + apply Nat.ltb_lt in L.
      destruct (KFold_split (sequences s)) as [[|fold folds]|] eqn:K.
      * apply select_CV_no_fold_run; auto.
      * assert (Hne : fold :: folds <> []) by discriminate.
        destruct (select_CV_folds_run s L K Hne) as [e' [E _]].
        rewrite E. rewrite CV_loop_nil; [reflexivity|].
        intros n Hn. apply candidates_In in Hn.
        specialize (H n). apply in_range_spec in Hn. rewrite Hn in H.
        destruct (snd (run_folds s n (fold :: folds) [] None));
          [discriminate|reflexivity].
      * apply select_CV_no_fold_run; auto.
    + apply Nat.ltb_ge in L.
      destruct (select_CV_single_run s L) as [e' [E _]]. rewrite E.
      now rewrite (R CV_single_trial H).
Qed.

(** When no candidate is fitted and scored, SelectorConstant returns None
    and the three others return the integer [n_constant] itself, not a
    model fitted with it. *)
Theorem select_without_a_completing_candidate k s :
  (forall n, completes k s n = false) ->
  fst (select k s) =
  Ok (match k with
      | SelectorConstant => PyNone
      | _ => PyInt (n_constant s)
      end).
Proof. intros H. unfold select. cbn [fst]. now apply select_fallback. Qed.

Lemma fit_model_configuration s n X' lengths' m :
  fit_model s n X' lengths' = Some m ->
  n_components m = n /\ covariance_type m = "diag"%string /\
  n_iter m = 1000 /\ hmm_random_state m = random_state s.
Proof.
  unfold fit_model. destruct (hmm_fit _ _ _ _); simpl; [|discriminate].
  intros H. inversion H. auto.
Qed.

(** The model came out of a fit of [n] states by this selector. *)
Definition fitted_by (s : ModelSelector) (n : Z) (m : model_t) : Prop :=
  exists X' lengths', fit_model s n X' lengths' = Some m.

Lemma BIC_trial_fitted s n v m :
  BIC_trial s n = Some (v, m) -> fitted_by s n m.
Proof.
  unfold BIC_trial.
  destruct (fit_model s n (X s) (lengths s)) as [m'|] eqn:F; [|discriminate].
  destruct (hmm_score m' _ _); [|discriminate].
  intros H. inversion H; subst. exists (X s), (lengths s). exact F.
Qed.

Lemma DIC_trial_fitted s n v m :
  DIC_trial s n = Some (v, m) -> fitted_by s n m.
Proof.
  unfold DIC_trial.
  destruct (fit_model s n (X s) (lengths s)) as [m'|] eqn:F; [|discriminate].
  destruct (score_all m' _); [|discriminate].
  destruct (hmm_score m' _ _); [|discriminate].
  intros H. inversion H; subst. exists (X s), (lengths s). exact F.
Qed.

Lemma CV_single_trial_fitted s n v m :
  CV_single_trial s n = Some (v, m) -> fitted_by s n m.
Proof.
  unfold CV_single_trial.
  destruct (fit_model s n (X s) (lengths s)) as [m'|] eqn:F; [|discriminate].
  destruct (hmm_score m' _ _); [|discriminate].
  intros H. inversion H; subst. exists (X s), (lengths s). exact F.
Qed.

Lemma fold_trial_fitted s n fold x m :
  fold_trial s n fold = Some (x, m) -> fitted_by s n m.
Proof.
  destruct fold as [train_index test_index]. unfold fold_trial.
  destruct (combine_sequences train_index _) as [[Xt lt]|]; [|discriminate].
  destruct (combine_sequences test_index _) as [[? ?]|]; [|discriminate].
  destruct (fit_model s n Xt lt) as [m'|] eqn:F; [|discriminate].
  destruct (hmm_score m' _ _); [|discriminate].
  intros H. inversion H; subst. exists Xt, lt. exact F.
Qed.

Lemma run_folds_fitted s n folds : forall acc last m,
  snd (run_folds s n folds acc last) = Some m ->
  last = Some m \/ fitted_by s n m.
Proof.
  induction folds as [|fold r IH]; intros acc last m; simpl.
  - auto.
  - destruct (fold_trial s n fold) as [[x m']|] eqn:F; [|discriminate].
    intros H. apply IH in H. destruct H as [H|H]; [|auto].
    inversion H; subst. right. eapply fold_trial_fitted; eauto.
Qed.

Lemma CV_loop_fitted s folds cands : forall acc v x,
  In (v, x) (CV_loop s folds cands acc) ->
  exists n m, In n cands /\ x = PyModel m /\ fitted_by s n m.
Proof.
  induction cands as [|n r IH]; intros acc v x; simpl.
  - tauto.
  - intros H. apply in_app_or in H. destruct H as [H|H].
    + unfold CV_entry in H.
      destruct (snd (run_folds s n folds acc None)) as [m|] eqn:R;
        [|destruct H].
      destruct H as [H|[]]. inversion H; subst.
      apply run_folds_fitted in R.
      destruct R as [R|R]; [discriminate|]. exists n, m. auto.
    + apply IH in H. destruct H as [n' [m [Hn H]]]. exists n', m. auto.
Qed.

Lemma chosen_In pick (l : list (float * value)) s m :
  (forall first rest, In (pick first rest) (first :: rest)) ->
  chosen pick l s = PyModel m ->
  exists v, In (v, PyModel m) l.
Proof.
  intros Hpick. unfold chosen. destruct l as [|first rest]; [discriminate|].
  intros H. specialize (Hpick first rest).
  destruct (pick first rest) as [v x]. simpl in H. subst x. eauto.
Qed.

Lemma py_min_by_In (first : float * value) rest :
  In (py_min_by first rest) (first :: rest).
Proof. apply py_min_by_least. Qed.

Lemma py_max_by_In (first : float * value) rest :
  In (py_max_by first rest) (first :: rest).
Proof. apply py_max_by_greatest. Qed.

(** A model that [select()] returns was fitted by this selector, with a
    state count of the range, or with the constant for
    [SelectorConstant]. *)
Lemma select_model_fitted k s m :
  fst (run_select k s) = Ok (PyModel m) ->
  exists n,
    fitted_by s n m /\
    match k with
    | SelectorConstant => n = n_constant s
    | _ => min_n_components s <= n <= max_n_components s
    end.
Proof.
  destruct k.
  - rewrite select_Constant_run. unfold base_model_value. cbn [fst].
    destruct (fit_model s (n_constant s) (X s) (lengths s)) as [m'|] eqn:F;
      [|discriminate].
    intros H. inversion H; subst. exists (n_constant s).
    split; [|reflexivity]. exists (X s), (lengths s). exact F.
  - destruct (select_BIC_run s) as [e' [E _]]. rewrite E. cbn [fst].
    intros H. inversion H as [H'].
    destruct (@chosen_In _ _ _ _ py_min_by_In H') as [v Hin].
    apply recorded_In in Hin. destruct Hin as [n [m' [Hn [T Hm]]]].
    inversion Hm; subst m'. exists n. split; [|exact Hn].
    eapply BIC_trial_fitted; eauto.
  - destruct (select_DIC_run s) as [e' [E _]]. rewrite E. cbn [fst].
    intros H. inversion H as [H'].
    destruct (@chosen_In _ _ _ _ py_max_by_In H') as [v Hin].
    apply recorded_In in Hin. destruct Hin as [n [m' [Hn [T Hm]]]].
    inversion Hm; subst m'. exists n. split; [|exact Hn].
    eapply DIC_trial_fitted; eauto.
  - destruct (2 <? List.length (sequences s))%nat eqn:L.
    + apply Nat.ltb_lt in L.
      destruct (KFold_split (sequences s)) as [[|fold folds]|] eqn:K.
      * destruct (select_CV_no_fold_run s L) as [E _]; [auto|].
        rewrite E. discriminate.
      * assert (Hne : fold :: folds <> []) by discriminate.
        destruct (select_CV_folds_run s L K Hne) as [e' [E _]].
        rewrite E. cbn [fst]. intros H. inversion H as [H'].
        destruct (@chosen_In _ _ _ _ py_max_by_In H') as [v Hin].
        apply CV_loop_fitted in Hin. destruct Hin as [n [m' [Hn [Hm F]]]].
        inversion Hm; subst m'. exists n. split; [exact F|].
        now apply candidates_In.
      * destruct (select_CV_no_fold_run s L) as [E _]; [auto|].
        rewrite E. discriminate.
    + apply Nat.ltb_ge in L.
      destruct (select_CV_single_run s L) as [e' [E _]]. rewrite E.
      cbn [fst]. intros H. inversion H as [H'].
      destruct (@chosen_In _ _ _ _ py_max_by_In H') as [v Hin].
      apply recorded_In in Hin. destruct Hin as [n [m' [Hn [T Hm]]]].
      inversion Hm; subst m'. exists n. split; [|exact Hn].
      eapply CV_single_trial_fitted; eauto.
Qed.

(** Whatever fit, score and the split do, a model that select() returns
    was built with diagonal covariance, 1000 iterations and the selector's
    random state, and its state count is the constant for SelectorConstant
    and lies within [min_n_components, max_n_components] for the three
    others. *)
Theorem select_model_configuration k s m :
  fst (select k s) = Ok (PyModel m) ->
  covariance_type m = "diag"%string /\
  n_iter m = 1000 /\
  hmm_random_state m = random_state s /\
  match k with
  | SelectorConstant => n_components m = n_constant s
  | _ => min_n_components s <= n_components m <= max_n_components s
  end.
Proof.
  unfold select. cbn [fst]. intros H.
  apply select_model_fitted in H. destruct H as [n [[X' [l' F]] Hn]].
  apply fit_model_configuration in F. destruct F as [N [C [I R]]].
  repeat split; try assumption; destruct k; subst n; tauto.
Qed.

(** ** Which of several best candidates is returned *)

Lemma range_cons lo hi : lo < hi -> range lo hi = lo :: range (lo + 1) hi.
Proof.
  intros H. unfold range.
  replace (Z.to_nat (hi - lo)) with (S (Z.to_nat (hi - (lo + 1)))) by lia.
  simpl seq. simpl map. f_equal; [lia|].
  rewrite <- seq_shift, map_map. apply map_ext. intros i. lia.
Qed.

Lemma range_nil lo hi : hi <= lo -> range lo hi = [].
Proof.
  intros H. unfold range.
  replace (Z.to_nat (hi - lo)) with 0%nat by lia. reflexivity.
Qed.

(** [range] goes upwards. *)
Lemma range_increasing k : forall lo hi l1 a l2,
  Z.to_nat (hi - lo) = k ->
  range lo hi = l1 ++ a :: l2 ->
  (forall b, In b l1 -> b < a) /\ (forall b, In b l2 -> a < b).
Proof.
  induction k as [|k IH]; intros lo hi l1 a l2 Hk Hr.
  - rewrite range_nil in Hr by lia. destruct l1; discriminate.
  - rewrite range_cons in Hr by lia.
    destruct l1 as [|b0 l1]; simpl in Hr; injection Hr as H0 H1.
    + subst a l2. split; [intros b []|].
      intros b Hb. apply range_In in Hb. lia.
    + subst b0.
      assert (Ha : In a (range (lo + 1) hi))
        by (rewrite H1; apply in_or_app; right; now left).
      apply range_In in Ha.
      destruct (IH (lo + 1) hi l1 a l2 ltac:(lia) H1) as [H1' H2'].
      split; [|exact H2'].
      intros b [<-|Hb]; [lia|auto].
Qed.

(** Where an entry of [recorded] sits, the candidates split likewise. *)
Lemma recorded_split (f : Z -> list (float * value)) : forall l pre e post,
  (forall n, (List.length (f n) <= 1)%nat) ->
  flat_map f l = pre ++ e :: post ->
  exists l1 n0 l2,
    l = l1 ++ n0 :: l2 /\ pre = flat_map f l1 /\ f n0 = [e] /\
    post = flat_map f l2.
Proof.
  induction l as [|n l IH]; intros pre e post Hlen H; simpl in H.
  - destruct pre; discriminate.
  - specialize (Hlen n) as Hn.
    destruct (f n) as [|a [|b r]] eqn:F; simpl in Hn; [| |lia].
    + simpl in H. destruct (IH _ _ _ Hlen H) as [l1 [n0 [l2 [E [P [F0 Q]]]]]].
      exists (n :: l1), n0, l2. simpl. rewrite F, E. simpl. auto.
    + simpl in H. destruct pre as [|a' pre]; simpl in H; inversion H; subst.
      * exists [], n, l. simpl. auto.
      * destruct (IH _ _ _ Hlen H2) as [l1 [n0 [l2 [E [P [F0 Q]]]]]].
        exists (n :: l1), n0, l2. simpl. rewrite F, E. simpl.
        rewrite P. auto.
Qed.

Lemma entry_length t : (List.length (entry t) <= 1)%nat.
Proof. destruct t as [[v m]|]; simpl; lia. Qed.

Lemma py_min_by_split (rest : list (float * value)) : forall pre best mid,
  (forall y, In y pre -> (fst y <=? fst best)%float = false) ->
  (forall y, In y mid -> (fst y <? fst best)%float = false) ->
  exists pre' post',
    pre ++ best :: mid ++ rest = pre' ++ py_min_by best rest :: post' /\
    (forall y, In y pre' ->
               (fst y <=? fst (py_min_by best rest))%float = false) /\
    (forall y, In y post' ->
               (fst y <? fst (py_min_by best rest))%float = false).
Proof.
  induction rest as [|x rest IH]; intros pre best mid Hpre Hmid.
  - exists pre, mid. rewrite app_nil_r. auto.
  - unfold py_min_by in *. cbn [fold_left].
    destruct (fst x <? fst best)%float eqn:E.
    + destruct (IH (pre ++ best :: mid) x []) as [pre' [post' [H1 H2]]].
      * intros y Hy. destruct (fst y <=? fst x)%float eqn:L; [|reflexivity].
        pose proof (FloatOrder.leb_ltb_trans L E) as Lt.
        apply in_app_or in Hy. destruct Hy as [Hy|[<-|Hy]].
        -- rewrite <- (Hpre y Hy). symmetry. now apply FloatOrder.ltb_leb.
        -- now rewrite FloatOrder.ltb_irrefl in Lt.
        -- now rewrite (Hmid y Hy) in Lt.
      * intros y [].
      * exists pre', post'. split; [|exact H2].
        rewrite <- H1, <- app_assoc. reflexivity.
    + destruct (IH pre best (mid ++ [x])) as [pre' [post' [H1 H2]]].
      * exact Hpre.
      * intros y Hy. apply in_app_or in Hy.
        destruct Hy as [Hy|[<-|[]]]; auto.
      * exists pre', post'. split; [|exact H2].
        rewrite <- H1, <- app_assoc. reflexivity.
Qed.

Lemma py_max_by_split (rest : list (float * value)) : forall pre best mid,
  (forall y, In y pre -> (fst best <=? fst y)%float = false) ->
  (forall y, In y mid -> (fst best <? fst y)%float = false) ->
  exists pre' post',
    pre ++ best :: mid ++ rest = pre' ++ py_max_by best rest :: post' /\
    (forall y, In y pre' ->
               (fst (py_max_by best rest) <=? fst y)%float = false) /\
    (forall y, In y post' ->
               (fst (py_max_by best rest) <? fst y)%float = false).
Proof.
  induction rest as [|x rest IH]; intros pre best mid Hpre Hmid.
  - exists pre, mid. rewrite app_nil_r. auto.
  - unfold py_max_by in *. cbn [fold_left].
    destruct (fst best <? fst x)%float eqn:E.
    + destruct (IH (pre ++ best :: mid) x []) as [pre' [post' [H1 H2]]].
      * intros y Hy. destruct (fst x <=? fst y)%float eqn:L; [|reflexivity].
        pose proof (FloatOrder.ltb_leb_trans E L) as Lt.
        apply in_app_or in Hy. destruct Hy as [Hy|[<-|Hy]].
        -- rewrite <- (Hpre y Hy). symmetry. now apply FloatOrder.ltb_leb.
        -- now rewrite FloatOrder.ltb_irrefl in Lt.
        -- now rewrite (Hmid y Hy) in Lt.
      * intros y [].
      * exists pre', post'. split; [|exact H2].
        rewrite <- H1, <- app_assoc. reflexivity.
    + destruct (IH pre best (mid ++ [x])) as [pre' [post' [H1 H2]]].
      * exact Hpre.
      * intros y Hy. apply in_app_or in Hy.
        destruct Hy as [Hy|[<-|[]]]; auto.
      * exists pre', post'. split; [|exact H2].
        rewrite <- H1, <- app_assoc. reflexivity.
Qed.

(** The chosen entry of [recorded], against the candidates with fewer and
    with more states: [before] and [after] are what the scan leaves false
    for the entries before and after the one it keeps. *)
Lemma chosen_position trial s pick (before after : float -> float -> bool)
      m0 :
  (forall first rest, exists pre post,
      first :: rest = pre ++ pick first rest :: post /\
      (forall y, In y pre ->
                 before (fst y) (fst (pick first rest)) = false) /\
      (forall y, In y post ->
                 after (fst y) (fst (pick first rest)) = false)) ->
  (forall n v m, trial s n = Some (v, m) -> n_components m = n) ->
  chosen pick (recorded trial s) s = PyModel m0 ->
  exists v0,
    trial s (n_components m0) = Some (v0, m0) /\
    forall n v m,
      min_n_components s <= n <= max_n_components s ->
      trial s n = Some (v, m) ->
      (n < n_components m0 -> before v v0 = false) /\
      (n_components m0 < n -> after v v0 = false).
Proof.
  intros Hpick Hcomp Hc. unfold chosen in Hc.
  destruct (recorded trial s) as [|first rest] eqn:R; [discriminate|].
  destruct (Hpick first rest) as [pre [post [Hsplit [Hb Ha]]]].
  destruct (pick first rest) as [v0 x0]. simpl in Hc. subst x0.
  rewrite <- R in Hsplit. unfold recorded in Hsplit.
  apply recorded_split in Hsplit; [|intros n; apply entry_length].
  destruct Hsplit as [l1 [n0 [l2 [Hl [Hpre [He Hpost]]]]]].
  assert (T0 : trial s n0 = Some (v0, m0)).
  { destruct (trial s n0) as [[v' m']|]; simpl in He; [|discriminate].
    inversion He; subst. reflexivity. }
  pose proof (Hcomp _ _ _ T0) as N0. rewrite N0.
  exists v0. split; [exact T0|].
  destruct (@range_increasing _ _ _ _ _ _ eq_refl Hl) as [I1 I2].
  intros n v m Hr T. cbn [fst] in Hb, Ha.
  assert (Hn : In n l1 \/ n = n0 \/ In n l2).
  { apply candidates_In in Hr. rewrite Hl in Hr. apply in_app_or in Hr.
    destruct Hr as [Hr|[Hr|Hr]]; auto. }
  assert (Hin : forall l, In n l ->
                          In (v, PyModel m)
                             (flat_map (fun n => entry (trial s n)) l)).
  { intros l Hl'. apply in_flat_map. exists n. split; [exact Hl'|].
    rewrite T. now left. }
  split; intros Hlt.
  - destruct Hn as [Hn|[Hn|Hn]].
    + apply (Hb (v, PyModel m)). rewrite Hpre. now apply Hin.
    + lia.
    + apply I2 in Hn. lia.
  - destruct Hn as [Hn|[Hn|Hn]].
    + apply I1 in Hn. lia.
    + lia.
    + apply (Ha (v, PyModel m)). rewrite Hpost. now apply Hin.
Qed.

(** Of several candidates with the least BIC, SelectorBIC returns the one
    with the fewest states: every candidate of the range with fewer states
    than the returned model has a strictly greater value or none that
    compares, and none with more states has a strictly smaller one. *)
Theorem BIC_ties_go_to_the_fewest_states s m0 :
  fst (select SelectorBIC s) = Ok (PyModel m0) ->
  exists v0,
    BIC_trial s (n_components m0) = Some (v0, m0) /\
    forall n v m,
      min_n_components s <= n <= max_n_components s ->
      BIC_trial s n = Some (v, m) ->
      (n < n_components m0 -> (v <=? v0)%float = false) /\
      (n_components m0 < n -> (v <? v0)%float = false).
Proof.
  unfold select. cbn [fst].
  destruct (select_BIC_run s) as [e' [E _]]. rewrite E. cbn [fst].
  intros H. inversion H as [H'].
  apply (@chosen_position BIC_trial s (@py_min_by value)
           (fun y r => (y <=? r)%float) (fun y r => (y <? r)%float) m0);
    [|apply BIC_trial_n_components|exact H'].
  intros first rest.
  destruct (@py_min_by_split rest [] first []) as [pre [post [H1 H2]]];
    [intros y []|intros y []|].
  exists pre, post. split; [exact H1|exact H2].
Qed.

(** Of several candidates with the greatest DIC, SelectorDIC returns the
    one with the fewest states: the returned model's value is not reached
    by any candidate of the range with fewer states and not exceeded by
    any with more. *)
Theorem DIC_ties_go_to_the_fewest_states s m0 :
  fst (select SelectorDIC s) = Ok (PyModel m0) ->
  exists v0,
    DIC_trial s (n_components m0) = Some (v0, m0) /\
    forall n v m,
      min_n_components s <= n <= max_n_components s ->
      DIC_trial s n = Some (v, m) ->
      (n < n_components m0 -> (v0 <=? v)%float = false) /\
      (n_components m0 < n -> (v0 <? v)%float = false).
Proof.
  unfold select. cbn [fst].
  destruct (select_DIC_run s) as [e' [E _]]. rewrite E. cbn [fst].
  intros H. inversion H as [H'].
  apply (@chosen_position DIC_trial s (@py_max_by value)
           (fun y r => (r <=? y)%float) (fun y r => (r <? y)%float) m0);
    [|apply DIC_trial_n_components|exact H'].
  intros first rest.
  destruct (@py_max_by_split rest [] first []) as [pre [post [H1 H2]]];
    [intros y []|intros y []|].
  exists pre, post. split; [exact H1|exact H2].
Qed.

(** ** SelectorDIC without another word *)

Lemma is_nan_sub_nan x : is_nan (x - nan)%float = true.
Proof.
  destruct (is_nan (x - nan)%float) eqn:E; [reflexivity|].
  apply FloatOrder.is_nan_false in E. exfalso. apply E.
  rewrite sub_spec. change (Prim2SF nan) with S754_nan.
  destruct (Prim2SF x); reflexivity.
Qed.

Lemma np_mean_nil : np_mean (LList []) = nan.
Proof. reflexivity. Qed.

Lemma ltb_nan_l x y : is_nan x = true -> (x <? y)%float = false.
Proof.
  intros H. destruct (x <? y)%float eqn:E; [|reflexivity].
  apply FloatOrder.ltb_not_nan in E. destruct E as [E _]. congruence.
Qed.

(** [max] keeps a first element whose key is NaN. *)
Lemma py_max_by_nan (first : float * value) rest :
  is_nan (fst first) = true -> py_max_by first rest = first.
Proof.
  intros H. unfold py_max_by. induction rest as [|x rest IH]; simpl.
  - reflexivity.
  - now rewrite (@ltb_nan_l (fst first) (fst x) H).
Qed.

Lemma candidates_split s n :
  min_n_components s <= n <= max_n_components s ->
  exists l1 l2,
    candidates s = l1 ++ n :: l2 /\
    forall b, In b l1 -> min_n_components s <= b < n.
Proof.
  intros Hn. apply candidates_In in Hn.
  destruct (in_split _ _ Hn) as [l1 [l2 Hl]].
  exists l1, l2. split; [exact Hl|].
  intros b Hb.
  destruct (@range_increasing _ _ _ _ _ _ eq_refl Hl) as [I1 _].
  assert (Hc : In b (candidates s))
    by (rewrite Hl; apply in_or_app; now left).
  apply candidates_In in Hc. specialize (I1 b Hb). lia.
Qed.

(** When the vocabulary holds no other word, the mean over the other
    words is the mean of nothing, NaN, and so is every value SelectorDIC
    records; it returns the model of the first candidate that is fitted
    and scores its own word, whatever the likelihoods are. *)
Theorem DIC_without_other_words s n m own :
  other_words s = [] ->
  min_n_components s <= n <= max_n_components s ->
  fit_model s n (X s) (lengths s) = Some m ->
  hmm_score m (X s) (lengths s) = Some own ->
  (forall n', min_n_components s <= n' < n -> DIC_trial s n' = None) ->
  fst (select SelectorDIC s) = Ok (PyModel m) /\
  forall v x, In (v, x) (scores (snd (run_select SelectorDIC s))) ->
              is_nan v = true.
Proof.
  intros Ho Hn Hf Hs Hfirst.
  destruct (select_DIC_run s) as [e' [E [_ S]]].
  unfold select. rewrite E. cbn [fst snd]. rewrite S.
  assert (Hnan : forall n' v' m', DIC_trial s n' = Some (v', m') ->
                                  is_nan v' = true).
  { intros n' v' m'. unfold DIC_trial. rewrite Ho. simpl score_all.
    destruct (fit_model s n' (X s) (lengths s)) as [m1|]; [|discriminate].
    destruct (hmm_score m1 (X s) (lengths s)); [|discriminate].
    intros H. injection H as Hv _. rewrite <- Hv.
    apply is_nan_sub_nan. }
  split.
  - destruct (candidates_split s Hn) as [l1 [l2 [Hl Hl1]]].
    unfold recorded. rewrite Hl, flat_map_app.
    replace (flat_map (fun n0 => entry (DIC_trial s n0)) l1) with
      (@nil (float * value)).
    2:{ symmetry. clear Hl. induction l1 as [|b l1 IH]; [reflexivity|].
        simpl. rewrite (Hfirst b (Hl1 b (or_introl eq_refl))). simpl.
        apply IH. intros b' Hb'. apply Hl1. now right. }
    simpl.
    assert (Ht : DIC_trial s n =
                 Some ((own - np_mean (LList []))%float, m))
      by (unfold DIC_trial; now rewrite Hf, Ho, Hs).
    rewrite Ht. simpl. rewrite py_max_by_nan; [reflexivity|].
    simpl. apply (Hnan _ _ _ Ht).
  - intros v x Hin. apply recorded_In in Hin.
    destruct Hin as [n' [m' [_ [T _]]]]. eapply Hnan; eauto.
Qed.

(** ** SelectorCV and the whole-word data *)

Lemma select_CV_folds_ext s1 s2 :
  other_attributes s1 = other_attributes s2 ->
  (2 < List.length (sequences s1))%nat ->
  fst (run_select SelectorCV s1) = fst (run_select SelectorCV s2).
Proof.
  intros A L1.
  assert (Hs : sequences s1 = sequences s2)
    by (unfold other_attributes in A; congruence).
  assert (Hc : n_constant s1 = n_constant s2)
    by (unfold other_attributes in A; congruence).
  assert (Hmin : min_n_components s1 = min_n_components s2)
    by (unfold other_attributes in A; congruence).
  assert (Hmax : max_n_components s1 = max_n_components s2)
    by (unfold other_attributes in A; congruence).
  assert (L2 : (2 < List.length (sequences s2))%nat) by (now rewrite <- Hs).
  destruct (KFold_split (sequences s1)) as [[|fold folds]|] eqn:K1;
    pose proof K1 as K2; rewrite Hs in K2.
  - destruct (select_CV_no_fold_run s1 L1) as [E1 _]; [auto|].
    destruct (select_CV_no_fold_run s2 L2) as [E2 _]; [auto|].
    now rewrite E1, E2, Hc.
  - assert (Hne : fold :: folds <> []) by discriminate.
    destruct (select_CV_folds_run s1 L1 K1 Hne) as [e1 [E1 _]].
    destruct (select_CV_folds_run s2 L2 K2 Hne) as [e2 [E2 _]].
    rewrite E1, E2. cbn [fst]. unfold candidates.
    rewrite (CV_loop_ext (fold :: folds) _ A), Hmin, Hmax.
    unfold chosen. now rewrite Hc.
  - destruct (select_CV_no_fold_run s1 L1) as [E1 _]; [auto|].
    destruct (select_CV_no_fold_run s2 L2) as [E2 _]; [auto|].
    now rewrite E1, E2, Hc.
Qed.

(** On a word with more than two sequences SelectorCV never reads the
    whole-word X and lengths: with anything else in their place it
    returns the same value; so a second select() on the same selector
    returns what the first did, although the first has rebound them. *)
Theorem CV_with_folds_ignores_whole_word_data s X' lengths' :
  (2 < List.length (sequences s))%nat ->
  fst (select SelectorCV (assign_X_lengths (X', lengths') s)) =
  fst (select SelectorCV s) /\
  fst (select SelectorCV (snd (select SelectorCV s))) =
  fst (select SelectorCV s).
Proof.
  intros L. unfold select. cbn [fst snd]. split.
  - apply select_CV_folds_ext; [reflexivity|exact L].
  - pose proof (select_other_attributes SelectorCV s) as A.
    apply select_CV_folds_ext; [exact A|].
    replace (sequences (self (snd (run_select SelectorCV s))))
      with (sequences s); [exact L|].
    unfold other_attributes in A. congruence.
Qed.

(** ** Selectors as [__init__] builds them *)

(** The two outcomes of [__init__]. *)
Lemma init_cases
        (all_word_sequences : dict string (list sequence))
        (all_word_Xlengths : dict string Xlengths) (word : string)
        (c lo hi seed : Z) (v : bool) :
  match init all_word_sequences all_word_Xlengths word c lo hi seed v with
  | Ok s =>
      dict_get String.eqb word all_word_sequences = Some (sequences s) /\
      dict_get String.eqb word all_word_Xlengths = Some (X s, lengths s) /\
      words s = all_word_sequences /\ hwords s = all_word_Xlengths /\
      this_word s = word /\ n_constant s = c /\
      min_n_components s = lo /\ max_n_components s = hi /\
      random_state s = seed /\ verbose s = v
  | Raise e =>
      e = KeyError /\
      (dict_get String.eqb word all_word_sequences = None \/
       dict_get String.eqb word all_word_Xlengths = None)
  end.
Proof.
  unfold init.
  destruct (dict_get String.eqb word all_word_sequences) as [sqs|].
  - destruct (dict_get String.eqb word all_word_Xlengths) as [[X' l']|].
    + simpl. repeat split; reflexivity.
    + auto.
  - auto.
Qed.

Lemma others_of_fresh w (xs : dict string Xlengths) :
  ~ In w (keys xs) -> others_of w xs = map snd xs.
Proof.
  unfold others_of. induction xs as [|[k d] xs IH]; simpl; intros H.
  - reflexivity.
  - destruct (k =? w)%string eqn:E.
    + apply String.eqb_eq in E. subst. tauto.
    + simpl. rewrite IH; [reflexivity|tauto].
Qed.

Lemma others_of_length w (xs : dict string Xlengths) d :
  NoDup (keys xs) ->
  dict_get String.eqb w xs = Some d ->
  (List.length (others_of w xs) + 1 = List.length xs)%nat.
Proof.
  induction xs as [|[k d'] xs IH]; simpl; intros Hnd Hget; [discriminate|].
  inversion Hnd as [|? ? Hnotin Hnd']; subst.
  unfold others_of. simpl. rewrite String.eqb_sym.
  destruct (w =? k)%string eqn:E; simpl.
  - apply String.eqb_eq in E. subst k.
    fold (others_of w xs). rewrite (@others_of_fresh _ _ Hnotin).
    rewrite length_map. lia.
  - fold (others_of w xs). rewrite <- (IH Hnd' Hget). lia.
Qed.

Lemma others_of_In w (xs : dict string Xlengths) d :
  In d (others_of w xs) <-> exists w', w' <> w /\ In (w', d) xs.
Proof.
  unfold others_of. rewrite in_map_iff. split.
  - intros [[w' d'] [H Hin]]. simpl in H. subst d'.
    apply filter_In in Hin. destruct Hin as [Hin Hneq]. simpl in Hneq.
    exists w'. split; [|exact Hin].
    intros ->. now rewrite String.eqb_refl in Hneq.
  - intros [w' [Hneq Hin]]. exists (w', d). split; [reflexivity|].
    apply filter_In. split; [exact Hin|]. simpl.
    destruct (w' =? w)%string eqn:E; [|reflexivity].
    apply String.eqb_eq in E. contradiction.
Qed.

Lemma score_all_length m l : forall ys,
  score_all m l = Some ys -> List.length ys = List.length l.
Proof.
  induction l as [|[X' l'] l IH]; simpl; intros ys H.
  - inversion H. reflexivity.
  - destruct (hmm_score m X' l'); [|discriminate].
    destruct (score_all m l) as [xs|]; [|discriminate].
    inversion H. simpl. now rewrite (IH xs eq_refl).
Qed.

(** For a selector built by __init__ over M distinct words, every value
    SelectorDIC records is the model's log-likelihood of the selector's
    own data minus the mean of exactly M - 1 log-likelihoods, those of
    the data of every word other than its own. *)
Theorem DIC_mean_is_over_every_other_word
        (all_word_sequences : dict string (list sequence))
        (all_word_Xlengths : dict string Xlengths) (word : string)
        (c lo hi seed : Z) (vb : bool) (s : ModelSelector) :
  NoDup (keys all_word_Xlengths) ->
  init all_word_sequences all_word_Xlengths word c lo hi seed vb = Ok s ->
  (forall d, In d (other_words s) <->
             exists w', w' <> word /\ In (w', d) all_word_Xlengths) /\
  forall v x,
    In (v, x) (scores (snd (run_select SelectorDIC s))) ->
    exists m others own,
      x = PyModel m /\
      score_all m (other_words s) = Some others /\
      (List.length others + 1 = List.length all_word_Xlengths)%nat /\
      hmm_score m (X s) (lengths s) = Some own /\
      v = (own - np_mean (LList others))%float.
Proof.
  intros Hnd Hinit.
  pose proof (init_cases all_word_sequences all_word_Xlengths word
                         c lo hi seed vb) as I.
  rewrite Hinit in I. destruct I as [_ [Hget [_ [Hh [Hw _]]]]].
  unfold other_words. rewrite Hh, Hw. split; [apply others_of_In|].
  destruct (select_DIC_run s) as [e' [E [_ S]]]. rewrite E. cbn [snd].
  rewrite S. intros v x Hin. apply recorded_In in Hin.
  destruct Hin as [n [m [_ [T ->]]]]. unfold DIC_trial in T.
  destruct (fit_model s n (X s) (lengths s)) as [m'|]; [|discriminate].
  unfold other_words in T. rewrite Hh, Hw in T.
  destruct (score_all m' (others_of word all_word_Xlengths))
    as [others|] eqn:Sc; [|discriminate].
  destruct (hmm_score m' (X s) (lengths s)) as [own|] eqn:Own;
    [|discriminate].
  inversion T; subst. exists m, others, own.
  repeat split; auto.
  rewrite (score_all_length _ _ Sc).
  eapply others_of_length; eauto.
Qed.

End WithLibraries.
End Selectors.


(* ================================================================== *)
(** * my_recognizer.py *)
(* ================================================================== *)

(** Modelled from the spec: [SinglesData] of [asl_data], which is not among
    the sources (section 3, TestItemSet): an ordered collection of unknown
    flattened observations, each under a stable item id. *)
Record SinglesData : Type := {
  get_all_Xlengths : dict Z Xlengths
}.

Module Recognizer.
Section WithLibraries.

Variable Params : Type.
Variable hmm_score : GaussianHMM Params -> Arr -> list Z -> option float.

Local Abbreviation value := (pyvalue Params).

(** The local variables of [recognize].  [best_guess] is [None] or a
    word. *)
Record env : Type := {
  probabilities : list (dict string float);
  guesses : list (option string);
  best_score : float;
  best_guess : option string;
  likelihoods : dict string float
}.

Definition enter : env :=
  {| probabilities := []; guesses := []; best_score := 0%float;
     best_guess := None; likelihoods := [] |}.

Definition set_probabilities (v : list (dict string float)) : M env unit :=
  modify (fun e => {| probabilities := v; guesses := guesses e;
                      best_score := best_score e;
                      best_guess := best_guess e;
                      likelihoods := likelihoods e |}).

Definition set_guesses (v : list (option string)) : M env unit :=
  modify (fun e => {| probabilities := probabilities e; guesses := v;
                      best_score := best_score e;
                      best_guess := best_guess e;
                      likelihoods := likelihoods e |}).

Definition set_best_score (v : float) : M env unit :=
  modify (fun e => {| probabilities := probabilities e;
                      guesses := guesses e;
                      best_score := v;
                      best_guess := best_guess e;
                      likelihoods := likelihoods e |}).

Definition set_best_guess (v : option string) : M env unit :=
  modify (fun e => {| probabilities := probabilities e;
                      guesses := guesses e;
                      best_score := best_score e;
                      best_guess := v;
                      likelihoods := likelihoods e |}).

Definition set_likelihoods (v : dict string float) : M env unit :=
  modify (fun e => {| probabilities := probabilities e;
                      guesses := guesses e;
                      best_score := best_score e;
                      best_guess := best_guess e;
                      likelihoods := v |}).

(** [likelihoods[word] = x] *)
Definition likelihoods_setitem (word : string) (x : float) : M env unit :=
  e <- get ;; set_likelihoods (dict_set String.eqb word x (likelihoods e)).

(** [likelihoods[word]] *)
Definition likelihoods_getitem (word : string) : M env float :=
  e <- get ;; lift KeyError (dict_get String.eqb word (likelihoods e)).

(** The [try] block of the loop over the models. *)
Definition score_try (word : string) (model : value)
           (X : Arr) (lengths : list Z) : M env unit :=
  x <- score hmm_score model X lengths ;;
  likelihoods_setitem word x ;;
  l <- likelihoods_getitem word ;;
  e <- get ;;
  if (best_score e <? l)%float then
    l' <- likelihoods_getitem word ;;
    set_best_guess (Some word) ;;
    set_best_score l'
  else pass.

(** The [except] block. *)
Definition score_except (word : string) : M env unit :=
  likelihoods_setitem word neg_infinity.

(** One turn of the loop over [models.items()]. *)
Definition score_model (X : Arr) (lengths : list Z)
           (entry : string * value) : M env unit :=
  let '(word, model) := entry in
  try_except (score_try word model X lengths) (score_except word).

(** One turn of the loop over the test items.  [probabilities.append]
    stores the dictionary built in this turn; the next turn binds
    [likelihoods] to a new one, so the stored one is not written again. *)
Definition recognize_item (models : dict string value) (item : Xlengths)
  : M env unit :=
  let '(X, lengths) := item in
  set_best_score neg_infinity ;;
  set_best_guess None ;;
  set_likelihoods [] ;;
  for_each models (score_model X lengths) ;;
  e <- get ;;
  set_probabilities (probabilities e ++ [likelihoods e]) ;;
  e <- get ;;
  set_guesses (guesses e ++ [best_guess e]).

Definition recognize_body (models : dict string value)
           (test_set : SinglesData)
  : M env (list (dict string float) * list (option string)) :=
  set_probabilities [] ;;
  set_guesses [] ;;
  for_each (values (get_all_Xlengths test_set)) (recognize_item models) ;;
  e <- get ;;
  ret (probabilities e, guesses e).

(** [recognize(models, test_set)] *)
Definition recognize (models : dict string value) (test_set : SinglesData)
  : result (list (dict string float) * list (option string)) :=
  fst (recognize_body models test_set enter).

(** ** What one test item yields *)

(** [model.score(X, lengths)] as a value: the log-likelihood, or the
    exception. *)
Definition outcome (model : value) (X : Arr) (lengths : list Z)
  : result float :=
  fst (@score Params unit hmm_score model X lengths tt).

(** What ends up under the model's word. *)
Definition recorded (model : value) (X : Arr) (lengths : list Z) : float :=
  match outcome model X lengths with
  | Ok x => x
  | Raise _ => neg_infinity
  end.

(** The three variables the loop over the models updates. *)
Definition scan_state : Type :=
  (dict string float * option string * float)%type.

Definition scan_step (X : Arr) (lengths : list Z) (st : scan_state)
           (entry : string * value) : scan_state :=
  let '(liks, guess, best) := st in
  let '(word, model) := entry in
  match outcome model X lengths with
  | Ok x =>
      (dict_set String.eqb word x liks,
       if (best <? x)%float then Some word else guess,
       if (best <? x)%float then x else best)
  | Raise _ => (dict_set String.eqb word neg_infinity liks, guess, best)
  end.

Definition scan (models : dict string value) (item : Xlengths)
  : scan_state :=
  fold_left (scan_step (fst item) (snd item)) models
            ([], None, neg_infinity).

Definition item_likelihoods (models : dict string value) (item : Xlengths)
  : dict string float := fst (fst (scan models item)).

Definition item_guess (models : dict string value) (item : Xlengths)
  : option string := snd (fst (scan models item)).

Definition state_of (e : env) : scan_state :=
  (likelihoods e, best_guess e, best_score e).

Lemma score_run St (model : value) X lengths (e : St) :
  score hmm_score model X lengths e = (outcome model X lengths, e).
Proof.
  unfold outcome, score, lift, raise, ret.
  destruct model; try reflexivity. destruct (hmm_score m X lengths);
    reflexivity.
Qed.

Lemma dict_get_set_same (word : string) (x : float) d :
  dict_get String.eqb word (dict_set String.eqb word x d) = Some x.
Proof.
  induction d as [|[w y] d IH]; simpl.
  - now rewrite String.eqb_refl.
  - destruct (word =? w)%string eqn:E; simpl; rewrite E; auto.
Qed.

Ltac rstep :=
  rewrite bind_run;
  unfold set_probabilities, set_guesses, set_best_score, set_best_guess,
         set_likelihoods, modify, get;
  cbn [probabilities guesses best_score best_guess likelihoods].

Lemma likelihoods_setitem_run word x e :
  likelihoods_setitem word x e =
  (Ok tt,
   snd (set_likelihoods (dict_set String.eqb word x (likelihoods e)) e)).
Proof. reflexivity. Qed.

Lemma likelihoods_getitem_run word e :
  likelihoods_getitem word e =
  match dict_get String.eqb word (likelihoods e) with
  | Some x => (Ok x, e)
  | None => (Raise KeyError, e)
  end.
Proof.
  unfold likelihoods_getitem, bind, get, lift.
  destruct (dict_get String.eqb word (likelihoods e)); reflexivity.
Qed.

Lemma score_model_run X lengths entry e :
  exists e',
    score_model X lengths entry e = (Ok tt, e') /\
    probabilities e' = probabilities e /\
    guesses e' = guesses e /\
    state_of e' = scan_step X lengths (state_of e) entry.
Proof.
  destruct entry as [word model].
  unfold score_model, try_except, score_try, state_of, scan_step.
  rewrite bind_run, score_run.
  destruct (outcome model X lengths) as [x|ex].
  - rewrite bind_run, likelihoods_setitem_run.
    rewrite bind_run, likelihoods_getitem_run.
    cbn [snd set_likelihoods modify likelihoods].
    rewrite dict_get_set_same. rstep.
    destruct (best_score e <? x)%float.
    + rewrite bind_run, likelihoods_getitem_run.
      cbn [likelihoods]. rewrite dict_get_set_same. rstep.
      eexists. split; [reflexivity|]. auto.
    + eexists. split; [reflexivity|]. auto.
  - unfold score_except. rewrite likelihoods_setitem_run.
    eexists. split; [reflexivity|]. auto.
Qed.

Lemma models_loop_run X lengths models : forall e,
  exists e',
    for_each models (score_model X lengths) e = (Ok tt, e') /\
    probabilities e' = probabilities e /\
    guesses e' = guesses e /\
    state_of e' = fold_left (scan_step X lengths) models (state_of e).
Proof.
  induction models as [|entry models IH]; intros e.
  - exists e. auto.
  - rewrite for_each_cons.
    destruct (score_model_run X lengths entry e) as [e1 [E1 [P1 [G1 S1]]]].
    rewrite E1. destruct (IH e1) as [e' [E [P [G S]]]].
    exists e'. split; [exact E|]. cbn [fold_left]. rewrite <- S1.
    repeat split; congruence.
Qed.

Lemma recognize_item_run models item e :
  exists e',
    recognize_item models item e = (Ok tt, e') /\
    probabilities e' = probabilities e ++ [item_likelihoods models item] /\
    guesses e' = guesses e ++ [item_guess models item].
Proof.
  destruct item as [X lengths].
  unfold recognize_item, item_likelihoods, item_guess, scan.
  rstep. rstep. rstep. rewrite bind_run.
  match goal with
  | |- context [for_each _ _ ?e1] =>
      destruct (models_loop_run X lengths models e1) as [e' [E [P [G S]]]]
  end.
  rewrite E. rstep. rstep.
  unfold state_of in S.
  cbn [probabilities guesses best_score best_guess likelihoods] in S, P, G.
  change (fst (X, lengths)) with X. change (snd (X, lengths)) with lengths.
  match goal with
  | |- context [fst (fst ?t)] =>
      replace t with (likelihoods e', best_guess e', best_score e')
        by exact S
  end.
  cbn [fst snd]. eexists. split; [reflexivity|].
  cbn [probabilities guesses]. rewrite P, G. auto.
Qed.

(** [recognize] returns, with one mapping and one guess per test item, in
    the order of the test set. *)
Lemma recognize_run models test_set :
  recognize models test_set =
  Ok (map (item_likelihoods models) (values (get_all_Xlengths test_set)),
      map (item_guess models) (values (get_all_Xlengths test_set))).
Proof.
  unfold recognize, recognize_body, enter. rstep. rstep. rewrite bind_run.
  match goal with
  | |- context [for_each ?items ?b ?e1] =>
      destruct (@for_each_invariant env Xlengths b
                  (fun done e' =>
                     probabilities e' = map (item_likelihoods models) done /\
                     guesses e' = map (item_guess models) done))
        with (l := items) (done := @nil Xlengths) (s := e1)
        as [e' [E [P G]]]; [|split; reflexivity|]
  end.
  - intros done item e1 [P G].
    destruct (recognize_item_run models item e1) as [e2 [E2 [P2 G2]]].
    exists e2. split; [exact E2|].
    rewrite !map_app, P2, G2, P, G. auto.
  - rewrite E. rstep. unfold ret. simpl in P, G. simpl. now rewrite P, G.
Qed.

(** ** The scan over the models *)

(** The mapping of one item when no word occurs twice in [models]: every
    word once, in the order of [models], under it what [recorded] says. *)
Definition recorded_all (models : dict string value) (item : Xlengths)
  : dict string float :=
  map (fun entry => (fst entry, recorded (snd entry) (fst item) (snd item)))
      models.

(** The guess is the first word whose likelihood is above negative
    infinity and above or incomparable to all before it, and which none
    after it exceeds; there is none when nothing is above negative
    infinity. *)
Definition first_greatest (liks : dict string float)
           (guess : option string) : Prop :=
  match guess with
  | None => forall w y, In (w, y) liks -> (neg_infinity <? y)%float = false
  | Some w =>
      exists i x,
        nth_error liks i = Some (w, x) /\
        (neg_infinity <? x)%float = true /\
        (forall j w' y, (j < i)%nat -> nth_error liks j = Some (w', y) ->
                        (x <=? y)%float = false) /\
        (forall j w' y, (i < j)%nat -> nth_error liks j = Some (w', y) ->
                        (x <? y)%float = false)
  end.

Lemma keys_recorded_all models item :
  keys (recorded_all models item) = keys models.
Proof.
  unfold keys, recorded_all. rewrite map_map. reflexivity.
Qed.

Lemma recorded_all_app l1 l2 item :
  recorded_all (l1 ++ l2) item = recorded_all l1 item ++ recorded_all l2 item.
Proof. unfold recorded_all. apply map_app. Qed.

Lemma dict_set_fresh (word : string) (x : float) d :
  ~ In word (keys d) ->
  dict_set String.eqb word x d = d ++ [(word, x)].
Proof.
  induction d as [|[w y] d IH]; simpl; intros H.
  - reflexivity.
  - destruct (word =? w)%string eqn:E.
    + apply String.eqb_eq in E. subst. tauto.
    + rewrite IH; [reflexivity|tauto].
Qed.

Lemma dict_get_nth (d : dict string float) : forall i w x,
  NoDup (keys d) ->
  nth_error d i = Some (w, x) ->
  dict_get String.eqb w d = Some x.
Proof.
  induction d as [|[w' y] d IH]; intros i w x Hnd Hn.
  - destruct i; discriminate.
  - simpl in Hnd. inversion Hnd as [|? ? Hnotin Hnd']; subst.
    destruct i as [|i]; simpl in *.
    + inversion Hn; subst. now rewrite String.eqb_refl.
    + destruct (w =? w')%string eqn:E.
      * apply String.eqb_eq in E. subst. exfalso. apply Hnotin.
        apply nth_error_In in Hn.
        change w' with (fst (w', x)). now apply in_map.
      * eapply IH; eauto.
Qed.

Definition scan_invariant (seen : dict string value) (item : Xlengths)
           (st : scan_state) : Prop :=
  let '(liks, guess, best) := st in
  liks = recorded_all seen item /\
  (neg_infinity <=? best)%float = true /\
  (forall w y, In (w, y) liks -> (best <? y)%float = false) /\
  match guess with
  | None => best = neg_infinity
  | Some w =>
      exists i,
        nth_error liks i = Some (w, best) /\
        (neg_infinity <? best)%float = true /\
        (forall j w' y, (j < i)%nat -> nth_error liks j = Some (w', y) ->
                        (best <=? y)%float = false)
  end.

Lemma leb_neg_infinity_not_ltb best :
  (neg_infinity <=? best)%float = true ->
  (best <? neg_infinity)%float = false.
Proof.
  intros H. destruct (best <? neg_infinity)%float eqn:E; [|reflexivity].
  pose proof (FloatOrder.ltb_leb_trans E H) as C.
  now rewrite FloatOrder.ltb_irrefl in C.
Qed.

Lemma scan_step_invariant seen entry item st :
  ~ In (fst entry) (keys seen) ->
  scan_invariant seen item st ->
  scan_invariant (seen ++ [entry]) item
                 (scan_step (fst item) (snd item) st entry).
Proof.
  destruct st as [[liks guess] best]. destruct entry as [word model].
  intros Hfresh [Hl [Hb [Hmax Hg]]]. simpl in Hfresh.
  assert (Hfresh' : ~ In word (keys liks))
    by (rewrite Hl, keys_recorded_all; exact Hfresh).
  assert (Hlen : forall j w' y, nth_error liks j = Some (w', y) ->
                                (j < List.length liks)%nat)
    by (intros j w' y H; apply nth_error_Some; congruence).
  unfold scan_step, scan_invariant.
  rewrite recorded_all_app. unfold recorded_all at 2. simpl map.
  unfold recorded.
  destruct (outcome model (fst item) (snd item)) as [x|ex].
  - rewrite dict_set_fresh by exact Hfresh'. rewrite <- Hl.
    split; [reflexivity|].
    destruct (best <? x)%float eqn:E.
    + split; [apply FloatOrder.ltb_leb;
              eapply FloatOrder.leb_ltb_trans; eassumption|].
      split.
      * intros w y Hin. apply in_app_or in Hin.
        destruct Hin as [Hin|[Hin|[]]].
        -- destruct (x <? y)%float eqn:E'; [|reflexivity].
           rewrite <- (Hmax w y Hin). symmetry.
           eapply FloatOrder.ltb_trans; eassumption.
        -- inversion Hin; subst. apply FloatOrder.ltb_irrefl.
      * exists (List.length liks). split.
        -- rewrite nth_error_app2, Nat.sub_diag; [reflexivity|lia].
        -- split; [eapply FloatOrder.leb_ltb_trans; eassumption|].
           intros j w' y Hj Hn. rewrite nth_error_app1 in Hn by exact Hj.
           apply nth_error_In in Hn.
           destruct (x <=? y)%float eqn:E'; [|reflexivity].
           rewrite <- (Hmax w' y Hn). symmetry.
           eapply FloatOrder.ltb_leb_trans; eassumption.
    + split; [exact Hb|]. split.
      * intros w y Hin. apply in_app_or in Hin.
        destruct Hin as [Hin|[Hin|[]]]; [eauto|].
        inversion Hin; subst. exact E.
      * destruct guess as [w|]; [|exact Hg].
        destruct Hg as [i [Hn [Hpos Hbefore]]]. exists i.
        split; [rewrite nth_error_app1; eauto|].
        split; [exact Hpos|].
        intros j w' y Hj Hn'. apply (Hbefore j w' y Hj).
        rewrite nth_error_app1 in Hn'; [exact Hn'|].
        apply Hlen in Hn. lia.
  - rewrite dict_set_fresh by exact Hfresh'. rewrite <- Hl.
    split; [reflexivity|]. split; [exact Hb|]. split.
    + intros w y Hin. apply in_app_or in Hin.
      destruct Hin as [Hin|[Hin|[]]]; [eauto|].
      inversion Hin; subst. now apply leb_neg_infinity_not_ltb.
    + destruct guess as [w|]; [|exact Hg].
      destruct Hg as [i [Hn [Hpos Hbefore]]]. exists i.
      split; [rewrite nth_error_app1; eauto|].
      split; [exact Hpos|].
      intros j w' y Hj Hn'. apply (Hbefore j w' y Hj).
      rewrite nth_error_app1 in Hn'; [exact Hn'|].
      apply Hlen in Hn. lia.
Qed.

Lemma scan_fold_invariant item rest : forall seen st,
  NoDup (keys (seen ++ rest)) ->
  scan_invariant seen item st ->
  scan_invariant (seen ++ rest) item
                 (fold_left (scan_step (fst item) (snd item)) rest st).
Proof.
  induction rest as [|entry rest IH]; intros seen st Hnd Hinv.
  - rewrite app_nil_r. exact Hinv.
  - cbn [fold_left].
    replace (seen ++ entry :: rest) with ((seen ++ [entry]) ++ rest) in *
      by (rewrite <- app_assoc; reflexivity).
    apply IH; [exact Hnd|].
    apply scan_step_invariant; [|exact Hinv].
    unfold keys in Hnd. rewrite !map_app in Hnd.
    apply NoDup_app_remove_r in Hnd.
    apply NoDup_remove_2 in Hnd. rewrite app_nil_r in Hnd. exact Hnd.
Qed.

Lemma scan_invariant_end models item :
  NoDup (keys models) ->
  scan_invariant models item (scan models item).
Proof.
  intros Hnd. unfold scan.
  apply (@scan_fold_invariant item models [] ([], None, neg_infinity) Hnd).
  repeat split; auto. intros w y [].
Qed.

(** The mapping of an item has one entry per model. *)
Lemma item_likelihoods_recorded models item :
  NoDup (keys models) ->
  item_likelihoods models item = recorded_all models item.
Proof.
  intros Hnd. pose proof (@scan_invariant_end models item Hnd) as H.
  unfold item_likelihoods. destruct (scan models item) as [[liks guess] best].
  destruct H as [H _]. exact H.
Qed.

(** The guess of an item is the first greatest entry of its mapping. *)
Lemma item_guess_first_greatest models item :
  NoDup (keys models) ->
  first_greatest (item_likelihoods models item) (item_guess models item).
Proof.
  intros Hnd. pose proof (@scan_invariant_end models item Hnd) as H.
  unfold item_likelihoods, item_guess, first_greatest.
  destruct (scan models item) as [[liks guess] best]. cbn [fst snd].
  destruct H as [Hl [Hb [Hmax Hg]]]. destruct guess as [w|].
  - destruct Hg as [i [Hn [Hpos Hbefore]]]. exists i, best.
    repeat split; auto.
    intros j w' y Hj Hn'. apply nth_error_In in Hn'. eauto.
  - subst best. exact Hmax.
Qed.

(** ** Properties of [recognize] *)


Lemma recorded_all_In models item w y :
  In (w, y) (recorded_all models item) ->
  exists model, In (w, model) models /\
                y = recorded model (fst item) (snd item).
Proof.
  unfold recorded_all. rewrite in_map_iff.
  intros [[w' model] [H Hin]]. simpl in H. inversion H; subst.
  exists model. auto.
Qed.

(** The mapping of an item settles its guess. *)
Lemma first_greatest_unique liks g1 g2 :
  first_greatest liks g1 -> first_greatest liks g2 -> g1 = g2.
Proof.
  destruct g1 as [w1|], g2 as [w2|]; simpl; intros H1 H2.
  - destruct H1 as [p1 [x1 [N1 [P1 [B1 A1]]]]].
    destruct H2 as [p2 [x2 [N2 [P2 [B2 A2]]]]].
    apply FloatOrder.ltb_not_nan in P1, P2.
    destruct P1 as [_ Nan1], P2 as [_ Nan2].
    destruct (Nat.lt_total p1 p2) as [L|[E|L]].
    + pose proof (B2 p1 w1 x1 L N1) as C.
      pose proof (A1 p2 w2 x2 L N2) as D.
      rewrite (FloatOrder.ltb_false_leb Nan1 Nan2 D) in C. discriminate.
    + subst p2. rewrite N1 in N2. inversion N2. reflexivity.
    + pose proof (B1 p2 w2 x2 L N2) as C.
      pose proof (A2 p1 w1 x1 L N1) as D.
      rewrite (FloatOrder.ltb_false_leb Nan2 Nan1 D) in C. discriminate.
  - destruct H1 as [p1 [x1 [N1 [P1 _]]]].
    apply nth_error_In in N1. rewrite (H2 w1 x1 N1) in P1. discriminate.
  - destruct H2 as [p2 [x2 [N2 [P2 _]]]].
    apply nth_error_In in N2. rewrite (H1 w2 x2 N2) in P2. discriminate.
  - reflexivity.
Qed.

(** C8, as the code has it: recognize() returns one mapping and one
    guess per test item, in the order of the test set; the mapping of an
    item holds every word of [models] once, in their order, and under it
    the log-likelihood of the word's model on the item, or negative
    infinity when scoring it raised; the guess at the item's place is the
    guess of that item, the one its mapping settles. *)
Theorem recognize_one_entry_per_model models test_set :
  NoDup (keys models) ->
  exists probabilities guesses,
    recognize models test_set = Ok (probabilities, guesses) /\
    List.length probabilities =
    List.length (values (get_all_Xlengths test_set)) /\
    List.length guesses =
    List.length (values (get_all_Xlengths test_set)) /\
    forall i item,
      nth_error (values (get_all_Xlengths test_set)) i = Some item ->
      exists liks guess,
        nth_error probabilities i = Some liks /\
        nth_error guesses i = Some guess /\
        keys liks = keys models /\
        liks =
        map (fun entry =>
               (fst entry,
                match outcome (snd entry) (fst item) (snd item) with
                | Ok x => x
                | Raise _ => neg_infinity
                end)) models /\
        first_greatest liks guess /\
        (forall g, first_greatest liks g -> g = guess).
Proof.
  intros Hnd. rewrite recognize_run. do 2 eexists.
  split; [reflexivity|]. rewrite !length_map.
  split; [reflexivity|]. split; [reflexivity|].
  intros i item Hi.
  exists (item_likelihoods models item), (item_guess models item).
  split; [now apply map_nth_error|]. split; [now apply map_nth_error|].
  pose proof (@item_guess_first_greatest models item Hnd) as G.
  rewrite (@item_likelihoods_recorded models item Hnd) in *.
  split; [apply keys_recorded_all|]. split; [reflexivity|].
  split; [exact G|].
  intros g Hg. exact (first_greatest_unique _ _ _ Hg G).
Qed.


(** C10: a guess that is not None has a likelihood strictly above negative
    infinity; when no model scores the item strictly above negative
    infinity, the guess is None, also when some of the scores succeed. *)
Theorem guess_scores_above_negative_infinity models test_set :
  NoDup (keys models) ->
  exists probabilities guesses,
    recognize models test_set = Ok (probabilities, guesses) /\
    forall i item,
      nth_error (values (get_all_Xlengths test_set)) i = Some item ->
      exists liks guess,
        nth_error probabilities i = Some liks /\
        nth_error guesses i = Some guess /\
        (forall w, guess = Some w ->
           exists x, dict_get String.eqb w liks = Some x /\
                     (neg_infinity <? x)%float = true) /\
        ((forall w model x, In (w, model) models ->
            outcome model (fst item) (snd item) = Ok x ->
            (neg_infinity <? x)%float = false) ->
         guess = None).
Proof.
  intros Hnd. rewrite recognize_run. do 2 eexists.
  split; [reflexivity|].
  intros i item Hi.
  exists (item_likelihoods models item), (item_guess models item).
  split; [now apply map_nth_error|]. split; [now apply map_nth_error|].
  pose proof (@item_guess_first_greatest models item Hnd) as G.
  pose proof (@item_likelihoods_recorded models item Hnd) as L.
  assert (Hk : NoDup (keys (item_likelihoods models item)))
    by (rewrite L, keys_recorded_all; exact Hnd).
  split.
  - intros w Hw. rewrite Hw in G. destruct G as [p [x [Hn [Hpos _]]]].
    exists x. split; [|exact Hpos]. eapply dict_get_nth; eauto.
  - intros Hlow.
    destruct (item_guess models item) as [w|]; [|reflexivity].
    destruct G as [p [x [Hn [Hpos _]]]].
    apply nth_error_In in Hn. rewrite L in Hn.
    apply recorded_all_In in Hn. destruct Hn as [model [Hin Hx]].
    unfold recorded in Hx.
    destruct (outcome model (fst item) (snd item)) as [x'|ex] eqn:O.
    + subst x'. rewrite (Hlow w model x Hin O) in Hpos. discriminate.
    + subst x. discriminate.
Qed.

(** ** Further properties of [recognize] *)

Definition is_model (v : value) : bool :=
  match v with PyModel _ => true | _ => false end.

Lemma outcome_non_model v X lengths :
  is_model v = false -> is_ok (outcome v X lengths) = false.
Proof. destruct v; [reflexivity|reflexivity|discriminate]. Qed.

Lemma dict_get_In (d : dict string float) w x :
  NoDup (keys d) -> In (w, x) d -> dict_get String.eqb w d = Some x.
Proof.
  intros Hnd Hin. destruct (In_nth_error _ _ Hin) as [i Hi].
  eapply dict_get_nth; eauto.
Qed.

Lemma recorded_all_entry models item w model :
  In (w, model) models ->
  In (w, recorded model (fst item) (snd item)) (recorded_all models item).
Proof.
  intros Hin. unfold recorded_all.
  apply (in_map (fun entry =>
                   (fst entry, recorded (snd entry) (fst item) (snd item)))
                _ _ Hin).
Qed.

(** A word whose scoring raises on an item has negative infinity there
    and is not the guess. *)
Lemma failed_word_is_not_guessed models item w model :
  NoDup (keys models) ->
  In (w, model) models ->
  is_ok (outcome model (fst item) (snd item)) = false ->
  dict_get String.eqb w (item_likelihoods models item) = Some neg_infinity /\
  item_guess models item <> Some w.
Proof.
  intros Hnd Hin Hfail.
  pose proof (@item_guess_first_greatest models item Hnd) as G.
  pose proof (@item_likelihoods_recorded models item Hnd) as L.
  assert (Hk : NoDup (keys (item_likelihoods models item)))
    by (rewrite L, keys_recorded_all; exact Hnd).
  assert (Hget : dict_get String.eqb w (item_likelihoods models item) =
                 Some neg_infinity).
  { apply dict_get_In; [exact Hk|]. rewrite L.
    pose proof (@recorded_all_entry _ item _ _ Hin) as H.
    unfold recorded in H.
    destruct (outcome model (fst item) (snd item)); [discriminate|exact H]. }
  split; [exact Hget|].
  intros Hg. rewrite Hg in G. destruct G as [p [x [Hn [Hpos _]]]].
  rewrite (@dict_get_nth _ _ _ _ Hk Hn) in Hget. inversion Hget; subst x.
  discriminate.
Qed.

(** A word of [models] whose value is not a model, None or an integer as
    select() returns them when no candidate completes, has negative
    infinity in the mapping of every test item and is never the guess. *)
Theorem recognize_never_guesses_a_non_model models test_set w v :
  NoDup (keys models) ->
  In (w, v) models ->
  is_model v = false ->
  exists probabilities guesses,
    recognize models test_set = Ok (probabilities, guesses) /\
    forall i item,
      nth_error (values (get_all_Xlengths test_set)) i = Some item ->
      exists liks guess,
        nth_error probabilities i = Some liks /\
        nth_error guesses i = Some guess /\
        dict_get String.eqb w liks = Some neg_infinity /\
        guess <> Some w.
Proof.
  intros Hnd Hin Hv. rewrite recognize_run. do 2 eexists.
  split; [reflexivity|].
  intros i item Hi.
  exists (item_likelihoods models item), (item_guess models item).
  split; [now apply map_nth_error|]. split; [now apply map_nth_error|].
  apply failed_word_is_not_guessed with (model := v); auto.
  now apply outcome_non_model.
Qed.

(** The guess of an item, when there is one, is a word of [models] whose
    model scored the item, and its score is not NaN; and there is a guess
    as soon as one model scores the item strictly above negative
    infinity. *)
Theorem guess_is_a_scored_word models test_set :
  NoDup (keys models) ->
  exists probabilities guesses,
    recognize models test_set = Ok (probabilities, guesses) /\
    forall i item,
      nth_error (values (get_all_Xlengths test_set)) i = Some item ->
      exists guess,
        nth_error guesses i = Some guess /\
        (forall w, guess = Some w ->
           exists model x,
             In (w, model) models /\
             outcome model (fst item) (snd item) = Ok x /\
             is_nan x = false) /\
        (forall w model x,
           In (w, model) models ->
           outcome model (fst item) (snd item) = Ok x ->
           (neg_infinity <? x)%float = true ->
           guess <> None).
Proof.
  intros Hnd. rewrite recognize_run. do 2 eexists.
  split; [reflexivity|].
  intros i item Hi. exists (item_guess models item).
  split; [now apply map_nth_error|].
  pose proof (@item_guess_first_greatest models item Hnd) as G.
  pose proof (@item_likelihoods_recorded models item Hnd) as L.
  split.
  - intros w Hw. rewrite Hw in G. destruct G as [p [x [Hn [Hpos _]]]].
    apply nth_error_In in Hn. rewrite L in Hn.
    apply recorded_all_In in Hn. destruct Hn as [model [Hin Hx]].
    unfold recorded in Hx.
    destruct (outcome model (fst item) (snd item)) as [x'|ex] eqn:O.
    + subst x'. exists model, x. repeat split; auto.
      apply FloatOrder.ltb_not_nan in Hpos. tauto.
    + subst x. discriminate.
  - intros w model x Hin O Hpos Hg. rewrite Hg in G.
    pose proof (@recorded_all_entry _ item _ _ Hin) as H.
    rewrite <- L in H. unfold recorded in H. rewrite O in H.
    rewrite (G w x H) in Hpos. discriminate.
Qed.

(** Without models every mapping is empty and every guess None; without
    test items both lists are empty. *)
Theorem recognize_on_empty_input models test_set :
  recognize [] test_set =
  Ok (map (fun _ => []) (values (get_all_Xlengths test_set)),
      map (fun _ => None) (values (get_all_Xlengths test_set))) /\
  recognize models {| get_all_Xlengths := [] |} = Ok ([], []).
Proof.
  split; rewrite recognize_run; reflexivity.
Qed.

(** Each test item is recognized on its own: the outcome on two test sets
    one after the other is the outcome on the first followed by the
    outcome on the second. *)
Theorem recognize_items_independently models d1 d2 :
  exists p1 g1 p2 g2,
    recognize models {| get_all_Xlengths := d1 |} = Ok (p1, g1) /\
    recognize models {| get_all_Xlengths := d2 |} = Ok (p2, g2) /\
    recognize models {| get_all_Xlengths := d1 ++ d2 |} =
    Ok (p1 ++ p2, g1 ++ g2).
Proof.
  rewrite !recognize_run. do 4 eexists.
  split; [reflexivity|]. split; [reflexivity|].
  cbn [get_all_Xlengths]. unfold values. now rewrite !map_app.
Qed.

(** The guess and the best score, without the mapping. *)
Definition guess_of (st : scan_state) : option string * float :=
  (snd (fst st), snd st).

Lemma scan_step_guess X lengths st1 st2 entry :
  guess_of st1 = guess_of st2 ->
  guess_of (scan_step X lengths st1 entry) =
  guess_of (scan_step X lengths st2 entry).
Proof.
  destruct st1 as [[l1 g1] b1], st2 as [[l2 g2] b2], entry as [w model].
  unfold guess_of. simpl. intros H. inversion H; subst.
  destruct (outcome model X lengths); reflexivity.
Qed.

Lemma scan_fold_guess X lengths models : forall st1 st2,
  guess_of st1 = guess_of st2 ->
  guess_of (fold_left (scan_step X lengths) models st1) =
  guess_of (fold_left (scan_step X lengths) models st2).
Proof.
  induction models as [|entry models IH]; intros st1 st2 H.
  - exact H.
  - cbn [fold_left]. apply IH. now apply scan_step_guess.
Qed.

Lemma scan_step_failed X lengths st w model :
  is_ok (outcome model X lengths) = false ->
  guess_of (scan_step X lengths st (w, model)) = guess_of st.
Proof.
  destruct st as [[l g] b]. unfold guess_of. simpl.
  destruct (outcome model X lengths); [discriminate|reflexivity].
Qed.

Lemma item_guess_without_failed models1 w model models2 item :
  is_ok (outcome model (fst item) (snd item)) = false ->
  item_guess (models1 ++ (w, model) :: models2) item =
  item_guess (models1 ++ models2) item.
Proof.
  intros Hfail. unfold item_guess, scan.
  rewrite !fold_left_app. cbn [fold_left].
  match goal with
  | |- snd (fst ?a) = snd (fst ?b) =>
      change (fst (guess_of a) = fst (guess_of b))
  end.
  f_equal. apply scan_fold_guess. now apply scan_step_failed.
Qed.

(** A model that fails on every test item has no part in the guesses:
    they are what they would be without it in [models]. *)
Theorem failing_model_leaves_the_guesses models1 w model models2 test_set :
  (forall item, In item (values (get_all_Xlengths test_set)) ->
                is_ok (outcome model (fst item) (snd item)) = false) ->
  exists p p' guesses,
    recognize (models1 ++ (w, model) :: models2) test_set =
    Ok (p, guesses) /\
    recognize (models1 ++ models2) test_set = Ok (p', guesses).
Proof.
  intros Hfail. rewrite !recognize_run. do 3 eexists.
  split; [reflexivity|]. f_equal. f_equal.
  apply map_ext_in. intros item Hin. symmetry.
  apply item_guess_without_failed. now apply Hfail.
Qed.

End WithLibraries.
End Recognizer.


(* ================================================================== *)
(** * Both programs *)
(* ================================================================== *)

Section BothPrograms.

Variable Params : Type.
Variable hmm_fit : Z -> Z -> Arr -> list Z -> option (Z * Params).
Variable hmm_score : GaussianHMM Params -> Arr -> list Z -> option float.
Variable np_log : float -> float.
Variable KFold_split :
  list sequence -> option (list (list nat * list nat)).

Local Abbreviation select :=
  (Selectors.select hmm_fit hmm_score np_log KFold_split).
Local Abbreviation run_select :=
  (Selectors.run_select hmm_fit hmm_score np_log KFold_split).
Local Abbreviation recognize := (Recognizer.recognize hmm_score).


End BothPrograms.

(* ================================================================== *)
(** * A small vocabulary *)
(* ================================================================== *)

Module Example.

Definition fr (a : float) : frame := [a].

(** BOOK has three sequences, of two, one and three frames; CHAIR has
    one. *)
Definition book_sequences : list sequence :=
  [[fr 1; fr 2]; [fr 3]; [fr 4; fr 5; fr 6]].

Definition chair_sequences : list sequence := [[fr 7; fr 8]].

Definition all_sequences : dict string (list sequence) :=
  [("BOOK"%string, book_sequences); ("CHAIR"%string, chair_sequences)].

Definition all_Xlengths : dict string Xlengths :=
  [("BOOK"%string, (List.concat book_sequences, [2; 1; 3]));
   ("CHAIR"%string, (List.concat chair_sequences, [2]))].

Definition book : ModelSelector :=
  {| words := all_sequences;
     hwords := all_Xlengths;
     sequences := book_sequences;
     X := List.concat book_sequences;
     lengths := [2; 1; 3];
     this_word := "BOOK";
     n_constant := 3;
     min_n_components := 2;
     max_n_components := 4;
     random_state := 14;
     verbose := false |}.

Definition chair : ModelSelector :=
  {| words := all_sequences;
     hwords := all_Xlengths;
     sequences := chair_sequences;
     X := List.concat chair_sequences;
     lengths := [2];
     this_word := "CHAIR";
     n_constant := 3;
     min_n_components := 2;
     max_n_components := 4;
     random_state := 14;
     verbose := false |}.

(** A fitter that always succeeds, on one feature, and one that never
    does. *)
Definition fit_always (n seed : Z) (X : Arr) (lengths : list Z)
  : option (Z * unit) := Some (1, tt).

Definition fit_never (n seed : Z) (X : Arr) (lengths : list Z)
  : option (Z * unit) := None.

(** A scorer that depends on the state count only: -10 with two states,
    -4 with three, -5 with four, and a failure otherwise. *)
Definition score_by_states (m : GaussianHMM unit) (X : Arr)
           (lengths : list Z) : option float :=
  match n_components m with
  | 2 => Some (-10)%float
  | 3 => Some (-4)%float
  | 4 => Some (-5)%float
  | _ => None
  end.

(** A scorer that succeeds with negative infinity. *)
Definition score_neg_infinity (m : GaussianHMM unit) (X : Arr)
           (lengths : list Z) : option float := Some neg_infinity.

Definition log_stand_in (x : float) : float := x.

(** Three folds of three sequences, each holding one out. *)
Definition folds3 : list (list nat * list nat) :=
  [([1; 2], [0]); ([0; 2], [1]); ([0; 1], [2])]%nat.

Definition kfold3 (sqs : list sequence)
  : option (list (list nat * list nat)) :=
  match sqs with
  | [_; _; _] => Some folds3
  | _ => None
  end.

Definition hmm (n : Z) : GaussianHMM unit := Selectors.fitted n 14 (1, tt).

Definition models : dict string (pyvalue unit) :=
  [("BOOK"%string, PyModel (hmm 2)); ("CHAIR"%string, PyInt 3);
   ("JOHN"%string, PyModel (hmm 3))].

Definition test_set : SinglesData :=
  {| get_all_Xlengths :=
       [(0, (List.concat book_sequences, [2; 1; 3]));
        (1, (List.concat chair_sequences, [2]))] |}.

Lemma book_init :
  init all_sequences all_Xlengths "BOOK" 3 2 4 14 false = Ok book.
Proof. reflexivity. Qed.

Lemma chair_init :
  init all_sequences all_Xlengths "CHAIR" 3 2 4 14 false = Ok chair.
Proof. reflexivity. Qed.

Lemma models_NoDup : NoDup (keys models).
Proof. repeat constructor; simpl; intuition discriminate. Defined.

Local Abbreviation select :=
  (Selectors.select fit_always score_by_states log_stand_in kfold3).
Local Abbreviation run_select :=
  (Selectors.run_select fit_always score_by_states log_stand_in kfold3).
Local Abbreviation recognize := (Recognizer.recognize score_by_states).

(** ** The selectors on the vocabulary *)

(** When no fit succeeds, SelectorConstant returns None and the three
    others return the integer 3, the constant itself: none of them returns
    a model. *)
Lemma select_without_any_fit_returns_no_model :
  fst (Selectors.select fit_never score_by_states log_stand_in kfold3
                        SelectorConstant book) = Ok PyNone /\
  fst (Selectors.select fit_never score_by_states log_stand_in kfold3
                        SelectorBIC book) = Ok (PyInt 3) /\
  fst (Selectors.select fit_never score_by_states log_stand_in kfold3
                        SelectorDIC book) = Ok (PyInt 3) /\
  fst (Selectors.select fit_never score_by_states log_stand_in kfold3
                        SelectorCV book) = Ok (PyInt 3).
Proof. vm_compute. repeat split; reflexivity. Qed.

Lemma select_BIC_returns_model_example :
  exists m,
    fst (select SelectorBIC book) = Ok (PyModel m) /\
    (min_n_components book <= n_components m <= max_n_components book \/
     n_components m = n_constant book).
Proof.
  apply (@Selectors.select_returns_model_when_a_candidate_completes
           unit fit_always score_by_states log_stand_in kfold3
           SelectorBIC book 2).
  vm_compute. reflexivity.
Defined.

(** C2: on BOOK, with three folds and the scorer giving -10, -4 and -5 to
    the candidates 2, 3 and 4, the means of each candidate's own folds are
    -10, -4 and -5, so that 3 is the best candidate; SelectorCV records
    the mean of the first three, six and nine likelihoods instead, and
    returns the model with 4 states. *)
Theorem CV_criterion_mixes_candidates_example :
  map (fun n =>
         np_mean (LList (fst (Selectors.run_folds
                                fit_always score_by_states book n folds3
                                [] None))))
      [2; 3; 4] = [(-10)%float; (-4)%float; (-5)%float] /\
  map fst (Selectors.scores (snd (run_select SelectorCV book))) =
  [np_mean (LList [-10; -10; -10]%float);
   np_mean (LList [-10; -10; -10; -4; -4; -4]%float);
   np_mean (LList [-10; -10; -10; -4; -4; -4; -5; -5; -5]%float)] /\
  np_mean (LList [-10; -10; -10; -4; -4; -4]%float) = (-7)%float /\
  fst (select SelectorCV book) = Ok (PyModel (hmm 4)).
Proof. vm_compute. repeat split; reflexivity. Qed.

Lemma CV_with_folds_accumulates_example :
  Selectors.scores (snd (run_select SelectorCV book)) =
  Selectors.CV_loop fit_always score_by_states book folds3
                    (Selectors.candidates book) [] /\
  fst (select SelectorCV book) =
  Ok (Selectors.chosen (@py_max_by (pyvalue unit))
        (Selectors.CV_loop fit_always score_by_states book folds3
                           (Selectors.candidates book) [])
        book).
Proof.
  apply (@Selectors.CV_with_folds_accumulates
           unit fit_always score_by_states log_stand_in kfold3 book folds3).
  - vm_compute. lia.
  - reflexivity.
  - discriminate.
Defined.

(** After SelectorCV on BOOK, X and lengths hold the training data of the
    last fold, the first two sequences, no longer the whole word's. *)
Lemma select_CV_rebinds_training_data :
  X book = [fr 1; fr 2; fr 3; fr 4; fr 5; fr 6] /\
  lengths book = [2; 1; 3] /\
  X (snd (select SelectorCV book)) = [fr 1; fr 2; fr 3] /\
  lengths (snd (select SelectorCV book)) = [2; 1].
Proof. vm_compute. repeat split; reflexivity. Qed.

Lemma select_BIC_leaves_selector_example :
  snd (select SelectorBIC book) = book.
Proof.
  apply (proj2 (@Selectors.select_leaves_inputs_but_training_data
                  unit fit_always score_by_states log_stand_in kfold3
                  SelectorBIC book)).
  reflexivity.
Defined.

Lemma BIC_criterion_example :
  In (((-2.0) * (-10)
       + Z2F (2 ^ 2 + 2 * 1 * 2 - 1) * log_stand_in (Z2F 6))%float,
      PyModel (hmm 2))
     (Selectors.scores (snd (run_select SelectorBIC book))).
Proof.
  refine (proj1 (proj2 (@Selectors.BIC_selects_minimum_criterion
                          unit fit_always score_by_states log_stand_in
                          kfold3 book 2 (hmm 2) (-10)%float _ _ _))).
  - vm_compute. intuition discriminate.
  - reflexivity.
  - reflexivity.
Defined.


Lemma CV_without_folds_example :
  Selectors.scores (snd (run_select SelectorCV chair)) =
  [((-10)%float, PyModel (hmm 2)); ((-4)%float, PyModel (hmm 3));
   ((-5)%float, PyModel (hmm 4))] /\
  snd (select SelectorCV chair) = chair.
Proof.
  destruct (@Selectors.CV_without_folds_scores_once
              unit fit_always score_by_states log_stand_in kfold3 chair)
    as [H1 [H2 _]].
  - vm_compute. lia.
  - split; [rewrite H1; reflexivity|exact H2].
Defined.

(** ** A candidate that fails in a later fold *)





(** ** The recognizer on the vocabulary *)

(** A model whose score is negative infinity has that under its word, and
    its scoring did not fail. *)
Lemma neg_infinity_entry_of_a_successful_score :
  Recognizer.outcome score_neg_infinity (PyModel (hmm 2))
                     (List.concat chair_sequences) [2] = Ok neg_infinity /\
  Recognizer.recognize score_neg_infinity
                       [("BOOK"%string, PyModel (hmm 2))]
                       {| get_all_Xlengths :=
                            [(0, (List.concat chair_sequences, [2]))] |} =
  Ok ([[("BOOK"%string, neg_infinity)]], [None]).
Proof. vm_compute. split; reflexivity. Qed.

Lemma recognize_entries_example :
  exists probabilities guesses,
    recognize models test_set = Ok (probabilities, guesses) /\
    List.length probabilities = 2%nat /\ List.length guesses = 2%nat /\
    nth_error probabilities 1 =
    Some [("BOOK"%string, (-10)%float); ("CHAIR"%string, neg_infinity);
          ("JOHN"%string, (-4)%float)] /\
    nth_error guesses 1 = Some (Some "JOHN"%string).
Proof.
  destruct (@Recognizer.recognize_one_entry_per_model
              unit score_by_states models test_set models_NoDup)
    as [probabilities [guesses [E [L1 [L2 H]]]]].
  exists probabilities, guesses.
  split; [exact E|]. split; [exact L1|]. split; [exact L2|].
  destruct (H 1%nat _ eq_refl) as [liks [guess [Hp [Hg [_ [Hl [_ Hu]]]]]]].
  rewrite Hp, Hg, Hl. split; [reflexivity|].
  f_equal. symmetry. apply Hu. rewrite Hl.
  exists 2%nat, (-4)%float.
  split; [reflexivity|]. split; [reflexivity|]. split.
  - intros j w' y Hj Hn.
    destruct j as [|[|j]]; [| |lia]; inversion Hn; reflexivity.
  - intros j w' y Hj Hn.
    destruct j as [|[|[|[|j]]]]; try lia; discriminate.
Defined.


Lemma recognize_guess_above_example :
  exists probabilities guesses,
    recognize models test_set = Ok (probabilities, guesses) /\
    exists liks guess,
      nth_error probabilities 1 = Some liks /\
      nth_error guesses 1 = Some guess.
Proof.
  destruct (@Recognizer.guess_scores_above_negative_infinity
              unit score_by_states models test_set models_NoDup)
    as [probabilities [guesses [E H]]].
  exists probabilities, guesses. split; [exact E|].
  destruct (H 1%nat _ eq_refl) as [liks [guess [H1 [H2 _]]]].
  exists liks, guess. auto.
Defined.

(** ** Further examples *)

(** BOOK as the only word of the vocabulary. *)
Definition book_alone : ModelSelector :=
  {| words := [("BOOK"%string, book_sequences)];
     hwords := [("BOOK"%string, (List.concat book_sequences, [2; 1; 3]))];
     sequences := book_sequences;
     X := List.concat book_sequences;
     lengths := [2; 1; 3];
     this_word := "BOOK";
     n_constant := 3;
     min_n_components := 2;
     max_n_components := 4;
     random_state := 14;
     verbose := false |}.

Lemma select_BIC_fallback_example :
  fst (Selectors.select fit_never score_by_states log_stand_in kfold3
                        SelectorBIC book) = Ok (PyInt (n_constant book)).
Proof.
  apply (@Selectors.select_without_a_completing_candidate
           unit fit_never score_by_states log_stand_in kfold3
           SelectorBIC book).
  intros n. unfold Selectors.completes, Selectors.BIC_trial,
              Selectors.fit_model, fit_never.
  simpl. apply andb_false_r.
Defined.

Lemma select_model_configuration_example :
  covariance_type (hmm 2) = "diag"%string /\
  n_iter (hmm 2) = 1000 /\
  hmm_random_state (hmm 2) = random_state book /\
  min_n_components book <= n_components (hmm 2) <= max_n_components book.
Proof.
  apply (@Selectors.select_model_configuration
           unit fit_always score_by_states log_stand_in kfold3
           SelectorBIC book (hmm 2)).
  vm_compute. reflexivity.
Defined.

Lemma BIC_ties_example :
  exists v0,
    Selectors.BIC_trial fit_always score_by_states log_stand_in book
                        (n_components (hmm 2)) = Some (v0, hmm 2) /\
    forall n v m,
      min_n_components book <= n <= max_n_components book ->
      Selectors.BIC_trial fit_always score_by_states log_stand_in book n =
      Some (v, m) ->
      (n < n_components (hmm 2) -> (v <=? v0)%float = false) /\
      (n_components (hmm 2) < n -> (v <? v0)%float = false).
Proof.
  apply (@Selectors.BIC_ties_go_to_the_fewest_states
           unit fit_always score_by_states log_stand_in kfold3 book (hmm 2)).
  vm_compute. reflexivity.
Defined.

Lemma DIC_ties_example :
  exists v0,
    Selectors.DIC_trial fit_always score_by_states book
                        (n_components (hmm 2)) = Some (v0, hmm 2) /\
    forall n v m,
      min_n_components book <= n <= max_n_components book ->
      Selectors.DIC_trial fit_always score_by_states book n = Some (v, m) ->
      (n < n_components (hmm 2) -> (v0 <=? v)%float = false) /\
      (n_components (hmm 2) < n -> (v0 <? v)%float = false).
Proof.
  apply (@Selectors.DIC_ties_go_to_the_fewest_states
           unit fit_always score_by_states log_stand_in kfold3 book (hmm 2)).
  vm_compute. reflexivity.
Defined.

Lemma DIC_without_other_words_example :
  fst (select SelectorDIC book_alone) = Ok (PyModel (hmm 2)) /\
  forall v x,
    In (v, x) (Selectors.scores (snd (run_select SelectorDIC book_alone))) ->
    is_nan v = true.
Proof.
  apply (@Selectors.DIC_without_other_words
           unit fit_always score_by_states log_stand_in kfold3
           book_alone 2 (hmm 2) (-10)%float).
  - reflexivity.
  - vm_compute. intuition discriminate.
  - reflexivity.
  - reflexivity.
  - simpl. intros n' H. lia.
Defined.

Lemma CV_ignores_whole_word_data_example :
  fst (select SelectorCV (assign_X_lengths ([], []) book)) =
  fst (select SelectorCV book) /\
  fst (select SelectorCV (snd (select SelectorCV book))) =
  fst (select SelectorCV book).
Proof.
  apply (@Selectors.CV_with_folds_ignores_whole_word_data
           unit fit_always score_by_states log_stand_in kfold3 book [] []).
  vm_compute. lia.
Defined.

Lemma all_Xlengths_NoDup : NoDup (keys all_Xlengths).
Proof. repeat constructor; simpl; intuition discriminate. Defined.

Lemma DIC_mean_example :
  exists m others own,
    PyModel (hmm 2) = PyModel m /\
    Selectors.score_all score_by_states m (Selectors.other_words book) =
    Some others /\
    (List.length others + 1 = List.length all_Xlengths)%nat /\
    score_by_states m (X book) (lengths book) = Some own /\
    0%float = (own - np_mean (LList others))%float.
Proof.
  apply (proj2 (@Selectors.DIC_mean_is_over_every_other_word
                  unit fit_always score_by_states log_stand_in kfold3
                  all_sequences all_Xlengths "BOOK"%string 3 2 4 14 false
                  book all_Xlengths_NoDup book_init)
               0%float (PyModel (hmm 2))).
  vm_compute. left. reflexivity.
Defined.

Lemma recognize_non_model_example :
  exists probabilities guesses,
    recognize models test_set = Ok (probabilities, guesses) /\
    forall i item,
      nth_error (values (get_all_Xlengths test_set)) i = Some item ->
      exists liks guess,
        nth_error probabilities i = Some liks /\
        nth_error guesses i = Some guess /\
        dict_get String.eqb "CHAIR"%string liks = Some neg_infinity /\
        guess <> Some "CHAIR"%string.
Proof.
  apply (@Recognizer.recognize_never_guesses_a_non_model
           unit score_by_states models test_set "CHAIR"%string (PyInt 3)
           models_NoDup).
  - simpl. tauto.
  - reflexivity.
Defined.

Lemma guess_is_a_scored_word_example :
  exists probabilities guesses,
    recognize models test_set = Ok (probabilities, guesses) /\
    exists guess, nth_error guesses 0 = Some guess.
Proof.
  destruct (@Recognizer.guess_is_a_scored_word
              unit score_by_states models test_set models_NoDup)
    as [probabilities [guesses [E H]]].
  exists probabilities, guesses. split; [exact E|].
  destruct (H 0%nat _ eq_refl) as [guess [H1 _]].
  exists guess. exact H1.
Defined.

Lemma failing_model_example :
  exists p p' guesses,
    recognize ([("BOOK"%string, PyModel (hmm 2))]
               ++ ("CHAIR"%string, PyInt 3)
               :: [("JOHN"%string, PyModel (hmm 3))]) test_set =
    Ok (p, guesses) /\
    recognize ([("BOOK"%string, PyModel (hmm 2))]
               ++ [("JOHN"%string, PyModel (hmm 3))]) test_set =
    Ok (p', guesses).
Proof.
  apply (@Recognizer.failing_model_leaves_the_guesses
           unit score_by_states
           [("BOOK"%string, PyModel (hmm 2))] "CHAIR"%string (PyInt 3)
           [("JOHN"%string, PyModel (hmm 3))] test_set).
  intros item _. reflexivity.
Defined.

End Example.
